(** * seq2seq/models.py: the three model builders, embedded and verified

    [models.py] holds three factory functions, [SimpleSeq2Seq], [Seq2Seq]
    and [AttentionSeq2Seq].  Each one normalises its arguments, assembles an
    encoder and a decoder out of layers of Keras and recurrentshop, and wires
    them into a model.  The layers themselves belong to those libraries; what
    the builders decide is which constructor is called with which arguments
    and in which order, and that is what is embedded here: a constructor call
    is a piece of data, the Python exceptions the builders can run into are an
    error type, and the order of the constructor calls is kept in a log. *)

From Stdlib Require Import ZArith QArith String Ascii List Lia.
From stdpp Require Import base option list strings gmap fin_maps.

Set Warnings "-register-all".
Open Scope string_scope.
Open Scope Z_scope.

(** ** Python values *)

(** The values an entry of [**kwargs] can hold, as far as the builders look
    into them: [None], integers, booleans, strings, tuples and lists. *)
Inductive value : Type :=
| VNone
| VInt (z : Z)
| VBool (b : bool)
| VStr (s : string)
| VTuple (items : list value)
| VList (items : list value).

(** The exceptions of the Python run time that the builders can raise. *)
Inductive exn : Type :=
| UnboundLocalError (var : string)
| IndexError (what : string)
| TypeError (what : string).

(** A keyword dictionary. *)
Abbreviation kwargs_t := (gmap string value).

(** [tuple(v)]: tuples and lists give their items, a string its characters,
    anything else is not iterable. *)
Definition py_tuple (v : value) : exn + list value :=
  match v with
  | VTuple items => inr items
  | VList items => inr items
  | VStr s => inr (map (fun c => VStr (String c EmptyString)) (list_ascii_of_string s))
  | _ => inl (TypeError "object is not iterable")
  end.

(** [l[i]] on a Python list held as a Rocq list, for an index [i >= 0]. *)
Definition list_subscript {A : Type} (what : string) (l : list A) (i : nat) : exn + A :=
  match l !! i with
  | Some x => inr x
  | None => inl (IndexError what)
  end.

(** [v[i]] for an index [i >= 0]. *)
Definition subscript (v : value) (i : nat) : exn + value :=
  match v with
  | VTuple items => list_subscript "tuple index out of range" items i
  | VList items => list_subscript "list index out of range" items i
  | VStr s =>
      match String.get i s with
      | Some c => inr (VStr (String c EmptyString))
      | None => inl (IndexError "string index out of range")
      end
  | _ => inl (TypeError "object is not subscriptable")
  end.

(** [l[start:]] on a Python list: a negative [start] counts from the end, and
    both ends are clamped to the list. *)
Definition py_slice_from {A : Type} (start : Z) (l : list A) : list A :=
  let len := Z.of_nat (length l) in
  let lo := if start <? 0 then Z.max 0 (len + start) else Z.min len start in
  drop (Z.to_nat lo) l.

(** The number of iterations of [for _ in range(lo, hi)]. *)
Definition range_len (lo hi : Z) : nat := Z.to_nat (hi - lo).

(** ** Argument normalisation

    Lines 37-63 of [SimpleSeq2Seq], 132-158 of [Seq2Seq] and 215-241 of
    [AttentionSeq2Seq] are the same text; it is embedded once. *)

(** The [depth] argument: an [int], or a tuple or list of ints (only
    subscripted afterwards, so both are one case). *)
Inductive depth_arg : Type :=
| DInt (n : Z)
| DSeq (items : list Z).

(** [if type(depth) == int: depth = [depth, depth]] *)
Definition normalize_depth (depth : depth_arg) : depth_arg :=
  match depth with
  | DInt n => DSeq [n; n]
  | DSeq items => DSeq items
  end.

(** [depth[i]] after normalisation. *)
Definition depth_at (depth : depth_arg) (i : nat) : exn + Z :=
  match depth with
  | DInt _ => inl (TypeError "'int' object is not subscriptable")
  | DSeq items => list_subscript "tuple index out of range" items i
  end.

(** The [if]/[elif] chain on the three shape options.  The result is the
    local variable [shape], which stays unbound ([None] here) when no branch
    is taken, and the dictionary after the [del] statements. *)
Definition resolve_shape (kwargs : kwargs_t) : exn + (option value * kwargs_t) :=
  match kwargs !! "batch_input_shape" with
  | Some v => inr (Some v, delete "batch_input_shape" kwargs)
  | None =>
      match kwargs !! "input_shape" with
      | Some v =>
          match py_tuple v with
          | inl e => inl e
          | inr items => inr (Some (VTuple (VNone :: items)), delete "input_shape" kwargs)
          end
      | None =>
          match kwargs !! "input_dim" with
          | Some d =>
              match kwargs !! "input_length" with
              | Some n =>
                  inr (Some (VTuple [VNone; n; d]),
                       delete "input_dim" (delete "input_length" kwargs))
              | None =>
                  inr (Some (VTuple [VNone; VNone; d]), delete "input_dim" kwargs)
              end
          | None => inr (None, kwargs)
          end
      end
  end.

(** [if name in kwargs: x = kwargs[name]; del kwargs[name]  else: x = False] *)
Definition pop_flag (name : string) (kwargs : kwargs_t) : value * kwargs_t :=
  match kwargs !! name with
  | Some v => (v, delete name kwargs)
  | None => (VBool false, kwargs)
  end.

(** [if not hidden_dim: hidden_dim = output_dim].  [hidden_dim] is [None]
    (the default) or an int, and [not] holds of [None] and of [0]. *)
Definition resolve_hidden_dim (hidden_dim : option Z) (output_dim : Z) : Z :=
  match hidden_dim with
  | None => output_dim
  | Some h => if h =? 0 then output_dim else h
  end.

(** The local variables at the end of the normalisation. *)
Record locals : Type := Locals {
  l_depth : depth_arg;
  l_shape : option value;
  l_unroll : value;
  l_stateful : value;
  l_hidden_dim : Z;
  l_kwargs : kwargs_t
}.

Definition normalize_args (output_dim : Z) (hidden_dim : option Z)
    (depth : depth_arg) (kwargs : kwargs_t) : exn + locals :=
  let depth := normalize_depth depth in
  match resolve_shape kwargs with
  | inl e => inl e
  | inr (shape, kwargs) =>
      let '(unroll, kwargs) := pop_flag "unroll" kwargs in
      let '(stateful, kwargs) := pop_flag "stateful" kwargs in
      let hidden_dim := resolve_hidden_dim hidden_dim output_dim in
      inr (Locals depth shape unroll stateful hidden_dim kwargs)
  end.

(** ** The objects of Keras and recurrentshop

    A layer is the record of its constructor call. *)
Inductive layer : Type :=
| Dropout (rate : Q) (batch_input_shape : option value)
| LSTMCell (output_dim : Z) (batch_input_shape : option value) (kwargs : kwargs_t)
| LSTMDecoderCell (output_dim hidden_dim : Z) (batch_input_shape : option value)
    (kwargs : kwargs_t)
| AttentionDecoderCell (output_dim hidden_dim : Z).

(** A [RecurrentContainer]: the keyword arguments of its constructor call, in
    the order written, and the layers given to [add], in order. *)
Record container : Type := Container {
  rc_args : list (string * value);
  rc_layers : list layer
}.

(** [c.add(l)] *)
Definition add (c : container) (l : layer) : container :=
  Container (rc_args c) (rc_layers c ++ [l])%list.

(** What [encoder(...)] is called on in [AttentionSeq2Seq]: the container
    itself or its [Bidirectional] wrapper. *)
Inductive callable : Type :=
| Plain (c : container)
| Bidirectional (c : container) (merge_mode : string).

(** Symbolic tensors: the graph a builder wires. *)
Inductive tensor : Type :=
| Input (batch_shape : value)
| TimeDistributedDense (units : Z) (x : tensor)
| Dense (units : Z) (x : tensor)
| Call (f : callable) (x : tensor)
| CallItem (c : container) (x : tensor) (i : nat)
| CallDict (c : container) (input : tensor) (ground_truth : option tensor)
    (initial_readout : tensor) (states : list (option tensor)).

(** What a builder returns: [Sequential] with the containers added to it, or
    [Model(inputs, outputs)] with the attributes [encoder] and [decoder] when
    the builder sets them. *)
Inductive model : Type :=
| Sequential (layers : list container)
| Model (inputs : list tensor) (outputs : tensor) (encoder decoder : option container).

(** ** Build-time effects

    A builder either raises or returns, and on the way it calls constructors
    of the framework; the log holds the class names of the objects constructed
    so far, oldest first. *)
Definition M (A : Type) : Type := list string -> (exn + A) * list string.

Definition ret {A : Type} (a : A) : M A := fun log => (inr a, log).

Definition bind {A B : Type} (m : M A) (k : A -> M B) : M B :=
  fun log =>
    match m log with
    | (inl e, log') => (inl e, log')
    | (inr a, log') => k a log'
    end.

Notation "x <- m ;; k" := (bind m (fun x => k))
  (at level 100, m at next level, right associativity).

(** An expression that may raise and constructs nothing. *)
Definition lift {A : Type} (r : exn + A) : M A := fun log => (r, log).

(** A constructor call of the framework. *)
Definition constructed {A : Type} (class : string) (obj : A) : M A :=
  fun log => (inr obj, (log ++ [class])%list).

Definition class_of (l : layer) : string :=
  match l with
  | Dropout _ _ => "Dropout"
  | LSTMCell _ _ _ => "LSTMCell"
  | LSTMDecoderCell _ _ _ _ => "LSTMDecoderCell"
  | AttentionDecoderCell _ _ => "AttentionDecoderCell"
  end.

Definition new (l : layer) : M layer := constructed (class_of l) l.

(** [RecurrentContainer(name=value, ...)] *)
Definition RecurrentContainer (args : list (string * value)) : M container :=
  constructed "RecurrentContainer" (Container args []).

(** A use of the local variable [shape]. *)
Definition read_shape (shape : option value) : exn + value :=
  match shape with
  | Some v => inr v
  | None => inl (UnboundLocalError "shape")
  end.

(** [shape[i]] *)
Definition shape_at (shape : option value) (i : nat) : exn + value :=
  match read_shape shape with
  | inl e => inl e
  | inr v => subscript v i
  end.

(** [for _ in range(...)] with [n] iterations, the loop body acting on the
    container it adds to. *)
Fixpoint for_range {A : Type} (n : nat) (body : A -> M A) (a : A) : M A :=
  match n with
  | O => ret a
  | S n' => a' <- body a ;; for_range n' body a'
  end.

(** ** SimpleSeq2Seq (lines 16-78) *)
Definition SimpleSeq2Seq (output_dim output_length : Z) (hidden_dim : option Z)
    (depth : depth_arg) (dropout : Q) (kwargs : kwargs_t) : M model :=
  l <- lift (normalize_args output_dim hidden_dim depth kwargs) ;;
  let depth := l_depth l in
  let shape := l_shape l in
  let unroll := l_unroll l in
  let stateful := l_stateful l in
  let hidden_dim := l_hidden_dim l in
  let kwargs := l_kwargs l in
  shape1 <- lift (shape_at shape 1) ;;
  encoder <- RecurrentContainer
    [("unroll", unroll); ("stateful", stateful); ("input_length", shape1)] ;;
  shape0 <- lift (shape_at shape 0) ;;
  shape2 <- lift (shape_at shape 2) ;;
  cell <- new (LSTMCell hidden_dim (Some (VTuple [shape0; shape2])) kwargs) ;;
  let encoder := add encoder cell in
  depth0 <- lift (depth_at depth 0) ;;
  encoder <- for_range (range_len 1 depth0) (fun encoder =>
    drop <- new (Dropout dropout None) ;;
    let encoder := add encoder drop in
    cell <- new (LSTMCell hidden_dim None kwargs) ;;
    ret (add encoder cell)) encoder ;;
  shape1 <- lift (shape_at shape 1) ;;
  decoder <- RecurrentContainer
    [("unroll", unroll); ("stateful", stateful); ("decode", VBool true);
     ("output_length", VInt output_length); ("input_length", shape1)] ;;
  shape0 <- lift (shape_at shape 0) ;;
  drop <- new (Dropout dropout (Some (VTuple [shape0; VInt hidden_dim]))) ;;
  let decoder := add decoder drop in
  cell <- new (LSTMCell hidden_dim None kwargs) ;;
  let decoder := add decoder cell in
  depth1 <- lift (depth_at depth 1) ;;
  decoder <- for_range (range_len 1 depth1) (fun decoder =>
    drop <- new (Dropout dropout None) ;;
    let decoder := add decoder drop in
    cell <- new (LSTMCell hidden_dim None kwargs) ;;
    ret (add decoder cell)) decoder ;;
  model <- constructed "Sequential" [] ;;
  let model := (model ++ [encoder])%list in
  let model := (model ++ [decoder])%list in
  ret (Sequential model).

(** ** Seq2Seq (lines 80-186)

    Called with [return_states=True], a recurrentshop container returns a
    list: its output followed by its states.  How many states that is belongs
    to recurrentshop, so it is a parameter of the embedding. *)
Section Seq2Seq.

Variable num_states : container -> nat.

(** The list [encoder(x)] returns when the encoder returns its states. *)
Definition call_with_states (c : container) (x : tensor) : list tensor :=
  map (CallItem c x) (seq 0 (S (num_states c))).

Definition Seq2Seq (output_dim output_length : Z) (hidden_dim : option Z)
    (depth : depth_arg) (broadcast_state inner_broadcast_state teacher_force peek : bool)
    (dropout : Q) (kwargs : kwargs_t) : M model :=
  l <- lift (normalize_args output_dim hidden_dim depth kwargs) ;;
  let depth := l_depth l in
  let shape := l_shape l in
  let unroll := l_unroll l in
  let stateful := l_stateful l in
  let hidden_dim := l_hidden_dim l in
  let kwargs := l_kwargs l in
  shape1 <- lift (shape_at shape 1) ;;
  encoder <- RecurrentContainer
    [("readout", VBool true); ("state_sync", VBool inner_broadcast_state);
     ("input_length", shape1); ("unroll", unroll); ("stateful", stateful);
     ("return_states", VBool broadcast_state)] ;;
  depth0 <- lift (depth_at depth 0) ;;
  encoder <- for_range (range_len 0 depth0) (fun encoder =>
    shape0 <- lift (shape_at shape 0) ;;
    cell <- new (LSTMCell hidden_dim (Some (VTuple [shape0; VInt hidden_dim])) kwargs) ;;
    let encoder := add encoder cell in
    drop <- new (Dropout dropout None) ;;
    ret (add encoder drop)) encoder ;;
  dense <- constructed "Dense" hidden_dim ;;
  dense1 <- constructed "TimeDistributed" (TimeDistributedDense dense) ;;
  dense2 <- constructed "Dense" (Dense output_dim) ;;
  shape1 <- lift (shape_at shape 1) ;;
  decoder <- RecurrentContainer
    [("readout", VStr (if peek then "add" else "readout_only"));
     ("state_sync", VBool inner_broadcast_state);
     ("output_length", VInt output_length); ("unroll", unroll);
     ("stateful", stateful); ("decode", VBool true); ("input_length", shape1)] ;;
  depth1 <- lift (depth_at depth 1) ;;
  decoder <- for_range (range_len 0 depth1) (fun decoder =>
    shape0 <- lift (shape_at shape 0) ;;
    drop <- new (Dropout dropout (Some (VTuple [shape0; VInt output_dim]))) ;;
    let decoder := add decoder drop in
    shape0 <- lift (shape_at shape 0) ;;
    cell <- new (LSTMDecoderCell output_dim hidden_dim
                   (Some (VTuple [shape0; VInt output_dim])) kwargs) ;;
    ret (add decoder cell)) decoder ;;
  batch_shape <- lift (read_shape shape) ;;
  input <- constructed "Input" (Input batch_shape) ;;
  let encoded_seq := dense1 input in
  encoded <-
    (if broadcast_state then
       let encoded_seq := call_with_states encoder encoded_seq in
       let states := map Some (py_slice_from (-2) encoded_seq) in
       encoded_seq <- lift (list_subscript "list index out of range" encoded_seq 0) ;;
       ret (states, encoded_seq)
     else
       ret ([None; None], Call (Plain encoder) encoded_seq)) ;;
  let '(states, encoded_seq) := encoded in
  let encoded_seq := dense2 encoded_seq in
  let inputs := [input] in
  inputs <-
    (if teacher_force then
       shape0 <- lift (shape_at shape 0) ;;
       truth_tensor <- constructed "Input"
         (Input (VTuple [shape0; VInt output_length; VInt output_dim])) ;;
       ret (inputs ++ [truth_tensor])%list
     else ret inputs) ;;
  ground_truth <-
    (if broadcast_state then
       t <- lift (list_subscript "list index out of range" inputs 1) ;;
       ret (Some t)
     else ret None) ;;
  let decoded_seq := CallDict decoder encoded_seq ground_truth encoded_seq states in
  model <- constructed "Model" (Model inputs decoded_seq) ;;
  ret (model (Some encoder) (Some decoder)).

End Seq2Seq.

(** ** AttentionSeq2Seq (lines 189-272) *)
Definition AttentionSeq2Seq (output_dim output_length : Z) (hidden_dim : option Z)
    (depth : depth_arg) (bidirectional : bool) (dropout : Q) (kwargs : kwargs_t)
    : M model :=
  l <- lift (normalize_args output_dim hidden_dim depth kwargs) ;;
  let depth := l_depth l in
  let shape := l_shape l in
  let unroll := l_unroll l in
  let stateful := l_stateful l in
  let hidden_dim := l_hidden_dim l in
  let kwargs := l_kwargs l in
  shape1 <- lift (shape_at shape 1) ;;
  encoder <- RecurrentContainer
    [("unroll", unroll); ("stateful", stateful); ("return_sequences", VBool true);
     ("input_length", shape1)] ;;
  shape0 <- lift (shape_at shape 0) ;;
  shape2 <- lift (shape_at shape 2) ;;
  cell <- new (LSTMCell hidden_dim (Some (VTuple [shape0; shape2])) kwargs) ;;
  let encoder := add encoder cell in
  depth0 <- lift (depth_at depth 0) ;;
  encoder <- for_range (range_len 1 depth0) (fun encoder =>
    drop <- new (Dropout dropout None) ;;
    let encoder := add encoder drop in
    cell <- new (LSTMCell hidden_dim None kwargs) ;;
    ret (add encoder cell)) encoder ;;
  batch_shape <- lift (read_shape shape) ;;
  input <- constructed "Input" (Input batch_shape) ;;
  encoder <-
    (if bidirectional then constructed "Bidirectional" (Bidirectional encoder "sum")
     else ret (Plain encoder)) ;;
  let encoded := Call encoder input in
  shape1 <- lift (shape_at shape 1) ;;
  decoder <- RecurrentContainer
    [("decode", VBool true); ("output_length", VInt output_length);
     ("unroll", unroll); ("stateful", stateful); ("input_length", shape1)] ;;
  shape0 <- lift (shape_at shape 0) ;;
  shape1 <- lift (shape_at shape 1) ;;
  drop <- new (Dropout dropout (Some (VTuple [shape0; shape1; VInt hidden_dim]))) ;;
  let decoder := add decoder drop in
  depth1 <- lift (depth_at depth 1) ;;
  decoder <-
    (if depth1 =? 1 then
       cell <- new (AttentionDecoderCell output_dim hidden_dim) ;;
       ret (add decoder cell)
     else
       cell <- new (AttentionDecoderCell hidden_dim hidden_dim) ;;
       let decoder := add decoder cell in
       depth1 <- lift (depth_at depth 1) ;;
       decoder <- for_range (range_len 0 (depth1 - 2)) (fun decoder =>
         drop <- new (Dropout dropout None) ;;
         let decoder := add decoder drop in
         cell <- new (LSTMDecoderCell hidden_dim hidden_dim None ∅) ;;
         ret (add decoder cell)) decoder ;;
       drop <- new (Dropout dropout None) ;;
       let decoder := add decoder drop in
       cell <- new (LSTMDecoderCell output_dim hidden_dim None ∅) ;;
       ret (add decoder cell)) ;;
  let inputs := [input] in
  let decoded := Call (Plain decoder) encoded in
  model <- constructed "Model" (Model inputs decoded) ;;
  ret (model None None).


(** ** What the builders assemble

    The containers and the graph of each builder in closed form, as functions
    of the values the builder read from its arguments; the lemmas
    [SimpleSeq2Seq_returns], [Seq2Seq_returns] and [AttentionSeq2Seq_returns]
    show that these are what the builders return. *)

Definition simple_encoder (l : locals) (shape0 shape1 shape2 : value) (depth0 : Z)
    (dropout : Q) : container :=
  Container
    [("unroll", l_unroll l); ("stateful", l_stateful l); ("input_length", shape1)]
    (LSTMCell (l_hidden_dim l) (Some (VTuple [shape0; shape2])) (l_kwargs l)
     :: concat (replicate (range_len 1 depth0)
                  [Dropout dropout None; LSTMCell (l_hidden_dim l) None (l_kwargs l)])).

Definition simple_decoder (l : locals) (shape0 shape1 : value) (depth1 : Z)
    (output_length : Z) (dropout : Q) : container :=
  Container
    [("unroll", l_unroll l); ("stateful", l_stateful l); ("decode", VBool true);
     ("output_length", VInt output_length); ("input_length", shape1)]
    (Dropout dropout (Some (VTuple [shape0; VInt (l_hidden_dim l)]))
     :: LSTMCell (l_hidden_dim l) None (l_kwargs l)
     :: concat (replicate (range_len 1 depth1)
                  [Dropout dropout None; LSTMCell (l_hidden_dim l) None (l_kwargs l)])).

Definition seq2seq_encoder (l : locals) (shape0 shape1 : value) (depth0 : Z)
    (broadcast_state inner_broadcast_state : bool) (dropout : Q) : container :=
  Container
    [("readout", VBool true); ("state_sync", VBool inner_broadcast_state);
     ("input_length", shape1); ("unroll", l_unroll l); ("stateful", l_stateful l);
     ("return_states", VBool broadcast_state)]
    (concat (replicate (range_len 0 depth0)
               [LSTMCell (l_hidden_dim l)
                  (Some (VTuple [shape0; VInt (l_hidden_dim l)])) (l_kwargs l);
                Dropout dropout None])).

Definition seq2seq_decoder (l : locals) (shape0 shape1 : value) (depth1 : Z)
    (output_dim output_length : Z) (inner_broadcast_state peek : bool) (dropout : Q)
    : container :=
  Container
    [("readout", VStr (if peek then "add" else "readout_only"));
     ("state_sync", VBool inner_broadcast_state);
     ("output_length", VInt output_length); ("unroll", l_unroll l);
     ("stateful", l_stateful l); ("decode", VBool true); ("input_length", shape1)]
    (concat (replicate (range_len 0 depth1)
               [Dropout dropout (Some (VTuple [shape0; VInt output_dim]));
                LSTMDecoderCell output_dim (l_hidden_dim l)
                  (Some (VTuple [shape0; VInt output_dim])) (l_kwargs l)])).

(** The second model input of [Seq2Seq], made when [teacher_force] is set. *)
Definition truth_input (shape0 : value) (output_length output_dim : Z) : tensor :=
  Input (VTuple [shape0; VInt output_length; VInt output_dim]).

Definition attention_encoder (l : locals) (shape0 shape1 shape2 : value) (depth0 : Z)
    (dropout : Q) : container :=
  Container
    [("unroll", l_unroll l); ("stateful", l_stateful l);
     ("return_sequences", VBool true); ("input_length", shape1)]
    (LSTMCell (l_hidden_dim l) (Some (VTuple [shape0; shape2])) (l_kwargs l)
     :: concat (replicate (range_len 1 depth0)
                  [Dropout dropout None; LSTMCell (l_hidden_dim l) None (l_kwargs l)])).

Definition attention_decoder (l : locals) (shape0 shape1 : value) (depth1 : Z)
    (output_dim output_length : Z) (dropout : Q) : container :=
  Container
    [("decode", VBool true); ("output_length", VInt output_length);
     ("unroll", l_unroll l); ("stateful", l_stateful l); ("input_length", shape1)]
    (Dropout dropout (Some (VTuple [shape0; shape1; VInt (l_hidden_dim l)]))
     :: (if depth1 =? 1 then
           [AttentionDecoderCell output_dim (l_hidden_dim l)]
         else
           AttentionDecoderCell (l_hidden_dim l) (l_hidden_dim l)
           :: concat (replicate (range_len 0 (depth1 - 2))
                        [Dropout dropout None;
                         LSTMDecoderCell (l_hidden_dim l) (l_hidden_dim l) None ∅])
           ++ [Dropout dropout None;
               LSTMDecoderCell output_dim (l_hidden_dim l) None ∅])%list).

(** ** Vocabulary of the properties *)

Definition is_dropout (l : layer) : bool :=
  match l with Dropout _ _ => true | _ => false end.

Definition is_cell (l : layer) : bool := negb (is_dropout l).

Definition is_attention (l : layer) : bool :=
  match l with AttentionDecoderCell _ _ => true | _ => false end.

(** The cells of a container, in stacking order, and its two counts. *)
Definition cells (c : container) : list layer := List.filter is_cell (rc_layers c).
Definition num_cells (c : container) : nat := length (cells c).
Definition num_dropouts (c : container) : nat :=
  length (List.filter is_dropout (rc_layers c)).

(** A stack that starts with a cell and has one dropout layer between every
    two consecutive cells, and nowhere else. *)
Fixpoint dropout_between_cells (ls : list layer) : bool :=
  match ls with
  | [c] => is_cell c
  | c :: d :: rest => is_cell c && is_dropout d && dropout_between_cells rest
  | [] => false
  end.

(** A stack in which every cell, the first included, is preceded by a
    dropout layer of its own. *)
Fixpoint dropout_before_each_cell (ls : list layer) : bool :=
  match ls with
  | [] => true
  | d :: c :: rest => is_dropout d && is_cell c && dropout_before_each_cell rest
  | [_] => false
  end.

(** The dictionary a cell was given as [**kwargs]. *)
Definition forwarded_kwargs (l : layer) : option kwargs_t :=
  match l with
  | LSTMCell _ _ kwargs => Some kwargs
  | LSTMDecoderCell _ _ _ kwargs => Some kwargs
  | _ => None
  end.

(** Every cell of the container that takes [**kwargs] was given [kwargs]. *)
Definition forwards (kwargs : kwargs_t) (c : container) : Prop :=
  Forall (fun l => forall k, forwarded_kwargs l = Some k -> k = kwargs) (rc_layers c).

Definition present (kwargs : kwargs_t) (key : string) : bool :=
  match kwargs !! key with Some _ => true | None => false end.

(** The shape options the resolver matches, following the precedence order
    as the specification words it: the batch shape, else the input shape,
    else the input dimension together with the input length when given. *)
Definition matched_shape_keys (kwargs : kwargs_t) : list string :=
  if present kwargs "batch_input_shape" then ["batch_input_shape"]
  else if present kwargs "input_shape" then ["input_shape"]
  else if present kwargs "input_dim" then
    "input_dim" :: (if present kwargs "input_length" then ["input_length"] else [])
  else [].

(** The keys the normalisation consumes: the matched shape options, and the
    two flags when present. *)
Definition consumed_keys (kwargs : kwargs_t) : list string :=
  (matched_shape_keys kwargs
   ++ (if present kwargs "unroll" then ["unroll"] else [])
   ++ (if present kwargs "stateful" then ["stateful"] else []))%list.

(** None of the three shape options is given. *)
Definition no_shape_option (kwargs : kwargs_t) : Prop :=
  kwargs !! "batch_input_shape" = None /\
  kwargs !! "input_shape" = None /\
  kwargs !! "input_dim" = None.

(** Two option dictionaries on which every builder does the same. *)
Definition same_builds (kw kw' : kwargs_t) : Prop :=
  (forall od ol hd depth dr,
     SimpleSeq2Seq od ol hd depth dr kw = SimpleSeq2Seq od ol hd depth dr kw') /\
  (forall ns od ol hd depth bs ibs tf peek dr,
     Seq2Seq ns od ol hd depth bs ibs tf peek dr kw
     = Seq2Seq ns od ol hd depth bs ibs tf peek dr kw') /\
  (forall od ol hd depth bidi dr,
     AttentionSeq2Seq od ol hd depth bidi dr kw
     = AttentionSeq2Seq od ol hd depth bidi dr kw').

(** ** Vocabulary of the further properties *)

(** The value of the keyword argument [name] in the constructor call of a
    container. *)
Definition arg (c : container) (name : string) : option value :=
  snd <$> List.find (fun p => String.eqb (fst p) name) (rc_args c).


(** Every dropout layer of the container has the rate [rate]. *)
Definition dropout_rate_is (rate : Q) (c : container) : Prop :=
  Forall (fun l => forall r s, l = Dropout r s -> r = rate) (rc_layers c).

(** The constructor calls of a successful [SimpleSeq2Seq], in order. *)
Definition simple_calls (depth0 depth1 : Z) : list string :=
  (["RecurrentContainer"; "LSTMCell"]
   ++ concat (replicate (range_len 1 depth0) ["Dropout"; "LSTMCell"])
   ++ ["RecurrentContainer"; "Dropout"; "LSTMCell"]
   ++ concat (replicate (range_len 1 depth1) ["Dropout"; "LSTMCell"])
   ++ ["Sequential"])%list.

(** * Properties *)

(** ** Running the build monad *)

Lemma bind_lift_inr {A B : Type} (r : exn + A) (a : A) (k : A -> M B) log :
  r = inr a -> bind (lift r) k log = k a log.
Proof. intros ->. reflexivity. Qed.

Lemma bind_lift_inl {A B : Type} (r : exn + A) (e : exn) (k : A -> M B) log :
  r = inl e -> bind (lift r) k log = (inl e, log).
Proof. intros ->. reflexivity. Qed.

Lemma bind_constructed {A B : Type} (class : string) (obj : A) (k : A -> M B) log :
  bind (constructed class obj) k log = k obj (log ++ [class])%list.
Proof. reflexivity. Qed.

(** A loop whose body cannot raise: [n] iterations apply the body's effect on
    the container [n] times and log its constructor calls [n] times. *)
Lemma for_range_total {A : Type} (f : A -> A) (calls : list string)
    (body : A -> M A) (n : nat) :
  (forall a log, body a log = (inr (f a), (log ++ calls)%list)) ->
  forall a log,
    for_range n body a log
    = (inr (Nat.iter n f a), (log ++ concat (replicate n calls))%list).
Proof.
  intros Hbody. induction n as [|n IH]; intros a log; simpl.
  - unfold ret. by rewrite app_nil_r.
  - unfold bind. rewrite Hbody, IH. f_equal.
    + f_equal. clear. induction n as [|n IH]; simpl; [done|]. by rewrite IH.
    + by rewrite <- app_assoc.
Qed.

(** The layers of a container after [n] rounds of adding the layers [ls]. *)
Lemma iter_add_layers (ls : list layer) (n : nat) (c : container) :
  Nat.iter n (fun c => foldl add c ls) c
  = Container (rc_args c) (rc_layers c ++ concat (replicate n ls))%list.
Proof.
  assert (Hfold : forall ls c, foldl add c ls = Container (rc_args c) (rc_layers c ++ ls)%list).
  { clear. induction ls as [|x ls IH]; intros c; simpl.
    - rewrite app_nil_r. by destruct c.
    - rewrite IH. unfold add; simpl. by rewrite <- app_assoc. }
  revert c. induction n as [|n IH]; intros c; simpl.
  - rewrite app_nil_r. by destruct c.
  - rewrite IH, Hfold. simpl. f_equal.
    rewrite <- app_assoc. f_equal.
    clear. induction n as [|n IH]; simpl; [by rewrite app_nil_r|].
    rewrite <- !app_assoc. by rewrite IH.
Qed.

(** ** What the builders return *)

Lemma shape_at_lower (shape : option value) (i j : nat) (v : value) :
  shape_at shape i = inr v -> (j <= i)%nat -> exists w, shape_at shape j = inr w.
Proof.
  unfold shape_at, read_shape. destruct shape as [s|]; [|discriminate].
  intros H Hle.
  assert (Hlist : forall what what' (items : list value),
            list_subscript what items i = inr v ->
            exists w, list_subscript what' items j = inr w).
  { intros what what' items. unfold list_subscript.
    destruct (items !! i) eqn:Hi; [|discriminate]. intros _.
    destruct (lookup_lt_is_Some_2 items j) as [w Hw].
    { apply lookup_lt_Some in Hi. lia. }
    rewrite Hw. eauto. }
  destruct s; simpl in *; try discriminate; eauto.
  destruct (String.get i s) eqn:Hi; [|discriminate].
  assert (Hget : forall (s : string) i j c, String.get i s = Some c -> (j <= i)%nat ->
                 exists c', String.get j s = Some c').
  { clear. induction s as [|a s IH]; intros i j c Hc Hle; simpl in *; [by destruct i|].
    destruct j; [eauto|]. destruct i; [lia|]. eapply IH; [eassumption|lia]. }
  destruct (Hget _ _ _ _ Hi Hle) as [c' ->]. eauto.
Qed.

(** Runs the straight-line part of a builder in hypothesis [H]: constructor
    calls are logged, and an expression that may raise is split into its two
    outcomes, of which the raising one contradicts [H]. *)
Ltac run_in H :=
  repeat (cbv zeta in H;
    first
      [ rewrite bind_constructed in H
      | match type of H with
        | context [bind (lift ?r) ?k ?log] =>
            first
              [ rewrite (bind_lift_inr r _ k log) in H by (reflexivity || eassumption)
              | let E := fresh "E" in destruct r eqn:E; [discriminate H|] ]
        end ]).

(** Replaces a loop that adds the layers [ls] in each round. *)
Ltac run_loop H ls calls :=
  unfold bind at 1 in H;
  rewrite (for_range_total (fun c => foldl add c ls) calls) in H
    by (intros; cbn; by rewrite <- ?app_assoc);
  rewrite iter_add_layers in H.

(** The same for a loop body that reads [shape[0]], known to be [s0]. *)
Ltac run_loop_with H ls calls s0 :=
  unfold bind at 1 in H;
  rewrite (for_range_total (fun c => foldl add c ls) calls) in H
    by (intros; cbv beta;
        repeat (rewrite ?bind_constructed; rewrite (bind_lift_inr _ s0) by assumption);
        cbn; by rewrite <- ?app_assoc);
  rewrite iter_add_layers in H.

Lemma SimpleSeq2Seq_returns od ol hd depth dr kw log m log' :
  SimpleSeq2Seq od ol hd depth dr kw log = (inr m, log') ->
  exists l s0 s1 s2 d0 d1,
    normalize_args od hd depth kw = inr l /\
    shape_at (l_shape l) 0 = inr s0 /\
    shape_at (l_shape l) 1 = inr s1 /\
    shape_at (l_shape l) 2 = inr s2 /\
    depth_at (l_depth l) 0 = inr d0 /\
    depth_at (l_depth l) 1 = inr d1 /\
    m = Sequential [simple_encoder l s0 s1 s2 d0 dr; simple_decoder l s0 s1 d1 ol dr].
Proof.
  intros H. unfold SimpleSeq2Seq, RecurrentContainer, new in H.
  destruct (normalize_args od hd depth kw) as [e|l] eqn:Hl; [discriminate H|].
  run_in H.
  run_loop H [Dropout dr None; LSTMCell (l_hidden_dim l) None (l_kwargs l)]
    ["Dropout"; "LSTMCell"].
  run_in H.
  run_loop H [Dropout dr None; LSTMCell (l_hidden_dim l) None (l_kwargs l)]
    ["Dropout"; "LSTMCell"].
  run_in H. unfold ret in H. inversion H; subst. 
  eexists l, _, _, _, _, _. repeat split; try eassumption.
Qed.

Lemma AttentionSeq2Seq_returns od ol hd depth bidi dr kw log m log' :
  AttentionSeq2Seq od ol hd depth bidi dr kw log = (inr m, log') ->
  exists l shape s0 s1 s2 d0 d1,
    normalize_args od hd depth kw = inr l /\
    l_shape l = Some shape /\
    shape_at (l_shape l) 0 = inr s0 /\
    shape_at (l_shape l) 1 = inr s1 /\
    shape_at (l_shape l) 2 = inr s2 /\
    depth_at (l_depth l) 0 = inr d0 /\
    depth_at (l_depth l) 1 = inr d1 /\
    let encoder := attention_encoder l s0 s1 s2 d0 dr in
    let encoder := if bidi then Bidirectional encoder "sum" else Plain encoder in
    m = Model [Input shape]
          (Call (Plain (attention_decoder l s0 s1 d1 od ol dr))
             (Call encoder (Input shape)))
          None None.
Proof.
  intros H. unfold AttentionSeq2Seq, RecurrentContainer, new in H.
  destruct (normalize_args od hd depth kw) as [e|l] eqn:Hl; [discriminate H|].
  run_in H.
  run_loop H [Dropout dr None; LSTMCell (l_hidden_dim l) None (l_kwargs l)]
    ["Dropout"; "LSTMCell"].
  destruct (l_shape l) as [shape|] eqn:Hshape; [|discriminate].
  run_in H.
  destruct bidi;
    [unfold bind at 1, constructed at 1 in H | unfold bind at 1, ret at 1 in H];
    run_in H.
  all: unfold bind at 1 in H; destruct (z0 =? 1) eqn:Hz; run_in H.
  2, 4: run_loop H [Dropout dr None;
                    LSTMDecoderCell (l_hidden_dim l) (l_hidden_dim l) None ∅]
          ["Dropout"; "LSTMDecoderCell"]; run_in H.
  all: unfold ret in H; inversion H; subst;
    exists l, shape; eexists _, _, _, _, _;
    rewrite Hshape; repeat (split; [eassumption || reflexivity|]);
    unfold attention_decoder, attention_encoder, add; simpl; rewrite Hz;
    rewrite <- ?app_assoc; reflexivity.
Qed.

Lemma Seq2Seq_returns ns od ol hd depth bs ibs tf peek dr kw log m log' :
  Seq2Seq ns od ol hd depth bs ibs tf peek dr kw log = (inr m, log') ->
  exists l shape s0 s1 d0 d1,
    normalize_args od hd depth kw = inr l /\
    l_shape l = Some shape /\
    shape_at (l_shape l) 0 = inr s0 /\
    shape_at (l_shape l) 1 = inr s1 /\
    depth_at (l_depth l) 0 = inr d0 /\
    depth_at (l_depth l) 1 = inr d1 /\
    (bs = true -> tf = true) /\
    let encoder := seq2seq_encoder l s0 s1 d0 bs ibs dr in
    let decoder := seq2seq_decoder l s0 s1 d1 od ol ibs peek dr in
    let x := TimeDistributedDense (l_hidden_dim l) (Input shape) in
    let truth := truth_input s0 ol od in
    let encoded_seq :=
      Dense od (if bs then CallItem encoder x 0 else Call (Plain encoder) x) in
    m = Model
          (if tf then [Input shape; truth] else [Input shape])
          (CallDict decoder encoded_seq
             (if bs then Some truth else None)
             encoded_seq
             (if bs then map Some (py_slice_from (-2) (call_with_states ns encoder x))
              else [None; None]))
          (Some encoder) (Some decoder).
Proof.
  intros H. unfold Seq2Seq, RecurrentContainer, new in H.
  destruct (normalize_args od hd depth kw) as [e|l] eqn:Hl; [discriminate H|].
  run_in H.
  destruct (l_shape l) as [shape|] eqn:Hshape; [|discriminate].
  destruct (shape_at_lower _ 1 0 _ E) as [s0 Hs0]; [lia|].
  run_loop_with H
    [LSTMCell (l_hidden_dim l) (Some (VTuple [s0; VInt (l_hidden_dim l)])) (l_kwargs l);
     Dropout dr None]
    ["LSTMCell"; "Dropout"] s0.
  run_in H.
  run_loop_with H
    [Dropout dr (Some (VTuple [s0; VInt od]));
     LSTMDecoderCell od (l_hidden_dim l) (Some (VTuple [s0; VInt od])) (l_kwargs l)]
    ["Dropout"; "LSTMDecoderCell"] s0.
  run_in H.
  simpl rc_args in H. simpl rc_layers in H.
  destruct bs, tf; unfold bind at 1 in H; run_in H; unfold ret at 1 in H;
    unfold bind at 1 in H; run_in H; unfold ret at 1 in H; 
    unfold bind at 1 in H; run_in H; try unfold ret at 1 in H; run_in H.
  all: try match goal with
           | E : list_subscript _ [_] 1 = inr _ |- _ => discriminate E
           end.
  all: unfold ret in H; inversion H; subst;
    exists l, shape, s0; eexists _, _, _; rewrite Hshape;
    repeat (split; [eassumption || reflexivity || (intros; congruence)|]);
    cbv zeta; reflexivity.
Qed.

(** ** Argument normalisation *)

(** C10: [depth] is normalised to a pair before anything is assembled: an
    int [n] becomes [[n, n]], whose two entries are the encoder and decoder
    depths, a pair [(e, d)] stays as it is, and every builder treats [n] as
    it treats the pair [(n, n)]. *)
Theorem depth_normalized_to_pair :
  (forall n, normalize_depth (DInt n) = DSeq [n; n]) /\
  (forall e d, normalize_depth (DSeq [e; d]) = DSeq [e; d]) /\
  normalize_depth (DInt 3) = DSeq [3; 3] /\
  normalize_depth (DSeq [2; 5]) = DSeq [2; 5] /\
  (forall e d, depth_at (normalize_depth (DSeq [e; d])) 0 = inr e /\
               depth_at (normalize_depth (DSeq [e; d])) 1 = inr d) /\
  (forall od ol hd n dr kw,
     SimpleSeq2Seq od ol hd (DInt n) dr kw = SimpleSeq2Seq od ol hd (DSeq [n; n]) dr kw) /\
  (forall ns od ol hd n bs ibs tf peek dr kw,
     Seq2Seq ns od ol hd (DInt n) bs ibs tf peek dr kw
     = Seq2Seq ns od ol hd (DSeq [n; n]) bs ibs tf peek dr kw) /\
  (forall od ol hd n bidi dr kw,
     AttentionSeq2Seq od ol hd (DInt n) bidi dr kw
     = AttentionSeq2Seq od ol hd (DSeq [n; n]) bidi dr kw).
Proof. repeat split. Qed.

Lemma normalize_args_hidden_dim od hd depth kw l :
  normalize_args od hd depth kw = inr l ->
  l_hidden_dim l = resolve_hidden_dim hd od /\ l_depth l = normalize_depth depth.
Proof.
  unfold normalize_args. destruct (resolve_shape kw) as [e|[shape kw1]]; [discriminate|].
  destruct (pop_flag "unroll" kw1) as [u kw2].
  destruct (pop_flag "stateful" kw2) as [s kw3].
  intros [= <-]. done.
Qed.

(** The builders read [hidden_dim] only through its resolved value. *)
Lemma builders_hidden_dim od hd hd' :
  resolve_hidden_dim hd od = resolve_hidden_dim hd' od ->
  (forall ol depth dr kw,
     SimpleSeq2Seq od ol hd depth dr kw = SimpleSeq2Seq od ol hd' depth dr kw) /\
  (forall ns ol depth bs ibs tf peek dr kw,
     Seq2Seq ns od ol hd depth bs ibs tf peek dr kw
     = Seq2Seq ns od ol hd' depth bs ibs tf peek dr kw) /\
  (forall ol depth bidi dr kw,
     AttentionSeq2Seq od ol hd depth bidi dr kw
     = AttentionSeq2Seq od ol hd' depth bidi dr kw).
Proof.
  intros H.
  assert (Hn : forall depth kw,
            normalize_args od hd depth kw = normalize_args od hd' depth kw).
  { intros. unfold normalize_args. by rewrite H. }
  repeat split; intros;
    unfold SimpleSeq2Seq, Seq2Seq, AttentionSeq2Seq; by rewrite Hn.
Qed.

(** C9, as the code has it: [hidden_dim] omitted resolves to [output_dim],
    and so does a [hidden_dim] of 0, which [not hidden_dim] does not tell
    from an omitted one; any other [hidden_dim] is used as given.  The
    resolved value is the one the normalisation hands on, and a builder called
    without [hidden_dim] builds what it builds for [hidden_dim=output_dim]. *)
Theorem hidden_dim_resolved (od : Z) :
  resolve_hidden_dim None od = od /\
  resolve_hidden_dim (Some 0) od = od /\
  (forall h, h <> 0 -> resolve_hidden_dim (Some h) od = h) /\
  (forall hd depth kw l,
     normalize_args od hd depth kw = inr l -> l_hidden_dim l = resolve_hidden_dim hd od) /\
  (forall ol depth dr kw,
     SimpleSeq2Seq od ol None depth dr kw = SimpleSeq2Seq od ol (Some od) depth dr kw) /\
  (forall ns ol depth bs ibs tf peek dr kw,
     Seq2Seq ns od ol None depth bs ibs tf peek dr kw
     = Seq2Seq ns od ol (Some od) depth bs ibs tf peek dr kw) /\
  (forall ol depth bidi dr kw,
     AttentionSeq2Seq od ol None depth bidi dr kw
     = AttentionSeq2Seq od ol (Some od) depth bidi dr kw).
Proof.
  assert (Hsame : resolve_hidden_dim None od = resolve_hidden_dim (Some od) od).
  { simpl. by destruct (od =? 0) eqn:E. }
  split; [done|]. split; [done|]. split.
  { intros h Hh. simpl. destruct (h =? 0) eqn:E; [lia|done]. }
  split.
  { intros hd depth kw l Hl. by apply normalize_args_hidden_dim in Hl as [-> _]. }
  apply (builders_hidden_dim od None (Some od) Hsame).
Qed.

Lemma hidden_dim_resolved_witness :
  resolve_hidden_dim (Some 16) 8 = 16 /\
  (exists l, normalize_args 8 (Some 16) (DInt 1) ∅ = inr l /\ l_hidden_dim l = 16).
Proof.
  destruct (hidden_dim_resolved 8) as (_ & _ & Hgiven & Hnorm & _).
  split.
  - apply Hgiven. lia.
  - eexists. split; [vm_compute; reflexivity|]. reflexivity.
Defined.

(** C9 as stated fails: [hidden_dim=0] is given explicitly and is replaced by
    [output_dim]; the encoder's first cell is built with 8 units. *)
Lemma hidden_dim_zero_not_kept :
  resolve_hidden_dim (Some 0) 8 = 8 /\ 8 <> 0 /\
  exists enc dec log,
    SimpleSeq2Seq 8 10 (Some 0) (DInt 1) 0
      {[ "input_shape" := VTuple [VInt 10; VInt 8] ]} []
    = (inr (Sequential [enc; dec]), log) /\
    head (rc_layers enc) = Some (LSTMCell 8 (Some (VTuple [VNone; VInt 8])) ∅).
Proof.
  split; [reflexivity|]. split; [lia|].
  eexists _, _, _. split; vm_compute; reflexivity.
Qed.

(** ** The shape resolver *)

Lemma resolve_shape_none (kw : kwargs_t) :
  no_shape_option kw -> resolve_shape kw = inr (None, kw).
Proof. intros (H1 & H2 & H3). unfold resolve_shape. by rewrite H1, H2, H3. Qed.

(** The builders read the options only through the resolver. *)
Lemma resolve_shape_same_builds (kw kw' : kwargs_t) :
  resolve_shape kw = resolve_shape kw' -> same_builds kw kw'.
Proof.
  intros H.
  assert (Hn : forall od hd depth,
            normalize_args od hd depth kw = normalize_args od hd depth kw').
  { intros. unfold normalize_args. by rewrite H. }
  repeat split; intros;
    unfold SimpleSeq2Seq, Seq2Seq, AttentionSeq2Seq; by rewrite Hn.
Qed.

(** C3: without any of the three shape options every builder raises, and the
    log of constructor calls is as it was: no container, cell or input has
    been constructed.  The exception is the one Python raises for the use of
    the unbound local variable [shape]. *)
Theorem missing_shape_raises (kw : kwargs_t) :
  no_shape_option kw ->
  (forall od ol hd depth dr log,
     SimpleSeq2Seq od ol hd depth dr kw log = (inl (UnboundLocalError "shape"), log)) /\
  (forall ns od ol hd depth bs ibs tf peek dr log,
     Seq2Seq ns od ol hd depth bs ibs tf peek dr kw log
     = (inl (UnboundLocalError "shape"), log)) /\
  (forall od ol hd depth bidi dr log,
     AttentionSeq2Seq od ol hd depth bidi dr kw log
     = (inl (UnboundLocalError "shape"), log)).
Proof.
  intros Hno.
  assert (Hn : forall od hd depth, exists l,
            normalize_args od hd depth kw = inr l /\ l_shape l = None).
  { intros. unfold normalize_args. rewrite (resolve_shape_none kw Hno).
    destruct (pop_flag "unroll" kw) as [u kw2].
    destruct (pop_flag "stateful" kw2) as [s kw3]. eauto. }
  repeat split; intros;
    unfold SimpleSeq2Seq, Seq2Seq, AttentionSeq2Seq;
    destruct (Hn od hd depth) as (l & -> & Hshape);
    rewrite (bind_lift_inr _ l) by reflexivity; cbv zeta;
    rewrite Hshape; reflexivity.
Qed.

Lemma missing_shape_raises_witness :
  SimpleSeq2Seq 8 10 None (DInt 1) 0 {[ "input_length" := VInt 10 ]} []
  = (inl (UnboundLocalError "shape"), []).
Proof.
  assert (Hno : no_shape_option ({[ "input_length" := VInt 10 ]} : kwargs_t))
    by (repeat split; reflexivity).
  destruct (missing_shape_raises _ Hno) as (Hsimple & _ & _).
  exact (Hsimple 8 10 None (DInt 1) 0%Q []).
Defined.

(** C4: the three ways to give the shape [(None, t, f)] resolve to the same
    triple, and leave the same options behind, whatever else the dictionary
    holds; an input dimension alone resolves to [(None, None, f)]; so every
    builder builds the same from equivalent options.  When several forms are
    present the first in the order batch shape, input shape, input dimension
    gives the result. *)
Theorem shape_resolved_by_precedence :
  (forall (kw : kwargs_t) (t f : value),
     no_shape_option kw -> kw !! "input_length" = None ->
     let triple := Some (VTuple [VNone; t; f]) in
     resolve_shape (<["batch_input_shape" := VTuple [VNone; t; f]]> kw) = inr (triple, kw) /\
     resolve_shape (<["input_shape" := VTuple [t; f]]> kw) = inr (triple, kw) /\
     resolve_shape (<["input_dim" := f]> (<["input_length" := t]> kw)) = inr (triple, kw) /\
     resolve_shape (<["input_dim" := f]> kw) = inr (Some (VTuple [VNone; VNone; f]), kw) /\
     same_builds (<["batch_input_shape" := VTuple [VNone; t; f]]> kw)
                 (<["input_shape" := VTuple [t; f]]> kw) /\
     same_builds (<["batch_input_shape" := VTuple [VNone; t; f]]> kw)
                 (<["input_dim" := f]> (<["input_length" := t]> kw))) /\
  (forall (kw : kwargs_t) (v : value),
     kw !! "batch_input_shape" = Some v ->
     exists kw', resolve_shape kw = inr (Some v, kw')) /\
  (forall (kw : kwargs_t) (v : value) (items : list value),
     kw !! "batch_input_shape" = None ->
     kw !! "input_shape" = Some v -> py_tuple v = inr items ->
     exists kw', resolve_shape kw = inr (Some (VTuple (VNone :: items)), kw')) /\
  (forall (kw : kwargs_t) (d : value),
     kw !! "batch_input_shape" = None -> kw !! "input_shape" = None ->
     kw !! "input_dim" = Some d ->
     exists kw',
       resolve_shape kw
       = inr (Some (VTuple [VNone; default VNone (kw !! "input_length"); d]), kw')).
Proof.
  split; [|split; [|split]].
  - intros kw t f (Hb & Hs & Hd) Hl triple.
    assert (E1 : resolve_shape (<["batch_input_shape" := VTuple [VNone; t; f]]> kw)
                 = inr (triple, kw)).
    { unfold resolve_shape. rewrite lookup_insert_eq. by rewrite delete_insert_id. }
    assert (E2 : resolve_shape (<["input_shape" := VTuple [t; f]]> kw) = inr (triple, kw)).
    { unfold resolve_shape. rewrite lookup_insert_ne, Hb by done.
      rewrite lookup_insert_eq. simpl. by rewrite delete_insert_id. }
    assert (E3 : resolve_shape (<["input_dim" := f]> (<["input_length" := t]> kw))
                 = inr (triple, kw)).
    { unfold resolve_shape. rewrite !lookup_insert_ne, Hb, Hs by done.
      rewrite lookup_insert_eq, lookup_insert_ne, lookup_insert_eq by done.
      rewrite (delete_delete _ "input_dim"), delete_insert_id by (by rewrite lookup_insert_ne).
      by rewrite delete_insert_id. }
    assert (E4 : resolve_shape (<["input_dim" := f]> kw)
                 = inr (Some (VTuple [VNone; VNone; f]), kw)).
    { unfold resolve_shape. rewrite !lookup_insert_ne, Hb, Hs by done.
      rewrite lookup_insert_eq, lookup_insert_ne, Hl by done.
      by rewrite delete_insert_id. }
    repeat split; try assumption;
      apply resolve_shape_same_builds; congruence.
  - intros kw v H. unfold resolve_shape. rewrite H. eauto.
  - intros kw v items Hb H Ht. unfold resolve_shape. rewrite Hb, H, Ht. eauto.
  - intros kw d Hb Hs H. unfold resolve_shape. rewrite Hb, Hs, H.
    destruct (kw !! "input_length"); simpl; eauto.
Qed.

Lemma shape_resolved_by_precedence_witness :
  let triple := Some (VTuple [VNone; VInt 10; VInt 8]) in
  resolve_shape {[ "batch_input_shape" := VTuple [VNone; VInt 10; VInt 8] ]}
  = inr (triple, ∅) /\
  resolve_shape {[ "input_shape" := VTuple [VInt 10; VInt 8] ]} = inr (triple, ∅) /\
  resolve_shape (<["input_dim" := VInt 8]> {[ "input_length" := VInt 10 ]})
  = inr (triple, ∅) /\
  resolve_shape {[ "input_dim" := VInt 8 ]} = inr (Some (VTuple [VNone; VNone; VInt 8]), ∅) /\
  (exists kw',
     resolve_shape (<["batch_input_shape" := VTuple [VInt 4; VInt 10; VInt 8]]>
                      {[ "input_shape" := VTuple [VInt 7; VInt 3] ]})
     = inr (Some (VTuple [VInt 4; VInt 10; VInt 8]), kw')).
Proof.
  destruct shape_resolved_by_precedence as (Hequiv & Hbatch & _ & _).
  assert (Hno : no_shape_option (∅ : kwargs_t)) by (repeat split; reflexivity).
  destruct (Hequiv ∅ (VInt 10) (VInt 8) Hno eq_refl) as (E1 & E2 & E3 & E4 & _).
  cbv zeta. split; [exact E1|]. split; [exact E2|]. split; [exact E3|].
  split; [exact E4|]. apply Hbatch. reflexivity.
Defined.

(** ** The options that reach the cells *)

Lemma pop_flag_kwargs (name : string) (kw : kwargs_t) :
  snd (pop_flag name kw) = delete name kw.
Proof.
  unfold pop_flag. destruct (kw !! name) eqn:E; simpl; [done|].
  by rewrite delete_id.
Qed.

Lemma resolve_shape_kwargs (kw kw1 : kwargs_t) (shape : option value) :
  resolve_shape kw = inr (shape, kw1) ->
  kw1 = foldr delete kw (matched_shape_keys kw).
Proof.
  unfold resolve_shape, matched_shape_keys, present.
  destruct (kw !! "batch_input_shape") eqn:Eb; [by intros [= _ <-]|].
  destruct (kw !! "input_shape") as [v|] eqn:Ei.
  { destruct (py_tuple v); [discriminate|]. by intros [= _ <-]. }
  destruct (kw !! "input_dim") eqn:Ed; [|by intros [= _ <-]].
  destruct (kw !! "input_length") eqn:El; by intros [= _ <-].
Qed.

Lemma normalize_args_kwargs od hd depth (kw : kwargs_t) l :
  normalize_args od hd depth kw = inr l ->
  l_kwargs l
  = delete "stateful" (delete "unroll" (foldr delete kw (matched_shape_keys kw))).
Proof.
  unfold normalize_args.
  destruct (resolve_shape kw) as [e|[shape kw1]] eqn:Hr; [discriminate|].
  apply resolve_shape_kwargs in Hr as ->.
  set (kw1 := foldr delete kw (matched_shape_keys kw)).
  pose proof (pop_flag_kwargs "unroll" kw1) as Hu.
  destruct (pop_flag "unroll" kw1) as [u kw2]. simpl in Hu. subst kw2.
  pose proof (pop_flag_kwargs "stateful" (delete "unroll" kw1)) as Hs.
  destruct (pop_flag "stateful" (delete "unroll" kw1)) as [s kw3]. simpl in Hs. subst kw3.
  by intros [= <-].
Qed.

Lemma matched_shape_keys_flags (kw : kwargs_t) :
  ("unroll" ∉ matched_shape_keys kw) /\ ("stateful" ∉ matched_shape_keys kw).
Proof.
  unfold matched_shape_keys.
  destruct (present kw "batch_input_shape"), (present kw "input_shape"),
    (present kw "input_dim"), (present kw "input_length");
    split; rewrite ?elem_of_cons, elem_of_nil; intros H; decompose [or] H; done.
Qed.

Lemma elem_of_consumed_keys (kw : kwargs_t) (k : string) :
  k ∈ consumed_keys kw <->
  k ∈ matched_shape_keys kw \/
  (k = "unroll" /\ is_Some (kw !! "unroll")) \/
  (k = "stateful" /\ is_Some (kw !! "stateful")).
Proof.
  unfold consumed_keys, present. rewrite !elem_of_app.
  destruct (kw !! "unroll"), (kw !! "stateful");
    rewrite ?list_elem_of_singleton, ?elem_of_nil, ?is_Some_alt; tauto.
Qed.

Lemma normalize_args_frame od hd depth (kw : kwargs_t) l :
  normalize_args od hd depth kw = inr l ->
  forall k, l_kwargs l !! k = if bool_decide (k ∈ consumed_keys kw) then None else kw !! k.
Proof.
  intros H k. rewrite (normalize_args_kwargs _ _ _ _ _ H).
  destruct (matched_shape_keys_flags kw) as [Hu Hs].
  rewrite !lookup_delete.
  case_bool_decide as Hin; rewrite elem_of_consumed_keys in Hin.
  - repeat case_decide; try done.
    destruct Hin as [Hin|[[-> _]|[-> _]]]; try done.
    by apply lookup_foldr_delete.
  - repeat case_decide; subst.
    + destruct (kw !! "stateful") eqn:E; [|done].
      exfalso. apply Hin. right. right. eauto.
    + destruct (kw !! "unroll") eqn:E; [|done].
      exfalso. apply Hin. right. left. eauto.
    + apply lookup_foldr_delete_not_elem_of. tauto.
Qed.

Lemma Forall_concat_replicate {A : Type} (P : A -> Prop) (n : nat) (ls : list A) :
  Forall P ls -> Forall P (concat (replicate n ls)).
Proof.
  intros H. induction n as [|n IH]; simpl; [constructor|]. by apply Forall_app.
Qed.

Lemma forwards_intro (kw : kwargs_t) (args : list (string * value)) (ls : list layer) :
  Forall (fun l => forwarded_kwargs l = None \/ forwarded_kwargs l = Some kw) ls ->
  forwards kw (Container args ls).
Proof.
  unfold forwards. simpl. intros H. eapply Forall_impl; [exact H|].
  intros l [Hl|Hl] k Hk; congruence.
Qed.

Ltac forwards_tac :=
  apply forwards_intro;
  repeat first
    [ apply Forall_nil_2
    | apply Forall_cons_2; [simpl; auto|]
    | apply Forall_concat_replicate ].

(** C8: the options a builder hands to its cells are the options it was
    given without the keys the normalisation consumed: a consumed key is gone,
    any other key has the value it had.  In particular the shape options
    below the matched one are still there.  Every cell that takes [**kwargs]
    gets that dictionary. *)
Theorem consumed_options_removed od hd depth (kw : kwargs_t) l :
  normalize_args od hd depth kw = inr l ->
  (forall k, k ∈ consumed_keys kw -> l_kwargs l !! k = None) /\
  (forall k, k ∉ consumed_keys kw -> l_kwargs l !! k = kw !! k) /\
  (is_Some (kw !! "batch_input_shape") ->
     l_kwargs l !! "input_shape" = kw !! "input_shape" /\
     l_kwargs l !! "input_dim" = kw !! "input_dim" /\
     l_kwargs l !! "input_length" = kw !! "input_length") /\
  (kw !! "batch_input_shape" = None -> is_Some (kw !! "input_shape") ->
     l_kwargs l !! "input_dim" = kw !! "input_dim" /\
     l_kwargs l !! "input_length" = kw !! "input_length") /\
  (forall ol dr log m log',
     SimpleSeq2Seq od ol hd depth dr kw log = (inr m, log') ->
     exists enc dec,
       m = Sequential [enc; dec] /\
       forwards (l_kwargs l) enc /\ forwards (l_kwargs l) dec) /\
  (forall ns ol bs ibs tf peek dr log m log',
     Seq2Seq ns od ol hd depth bs ibs tf peek dr kw log = (inr m, log') ->
     exists inputs outputs enc dec,
       m = Model inputs outputs (Some enc) (Some dec) /\
       forwards (l_kwargs l) enc /\ forwards (l_kwargs l) dec) /\
  (forall ol bidi dr log m log',
     AttentionSeq2Seq od ol hd depth bidi dr kw log = (inr m, log') ->
     exists x enc dec,
       m = Model [x]
             (Call (Plain dec)
                (Call (if bidi then Bidirectional enc "sum" else Plain enc) x))
             None None /\
       forwards (l_kwargs l) enc).
Proof.
  intros Hl. pose proof (normalize_args_frame _ _ _ _ _ Hl) as Hframe.
  assert (Hkeep : forall k, k ∉ consumed_keys kw -> l_kwargs l !! k = kw !! k).
  { intros k Hk. rewrite Hframe. by rewrite bool_decide_false. }
  split; [|split; [exact Hkeep|split; [|split; [|split; [|split]]]]].
  - intros k Hk. rewrite Hframe. by rewrite bool_decide_true.
  - intros [v Hb]. repeat split; apply Hkeep; rewrite elem_of_consumed_keys;
      unfold matched_shape_keys, present; rewrite Hb;
      rewrite list_elem_of_singleton; intros [?|[[? _]|[? _]]]; done.
  - intros Hb [v Hi]. repeat split; apply Hkeep; rewrite elem_of_consumed_keys;
      unfold matched_shape_keys, present; rewrite Hb, Hi;
      rewrite list_elem_of_singleton; intros [?|[[? _]|[? _]]]; done.
  - intros ol dr log m log' H.
    apply SimpleSeq2Seq_returns in H as (l' & s0 & s1 & s2 & d0 & d1 & Hl' & _ & _ & _ & _ & _ & ->).
    assert (l' = l) as -> by congruence.
    eexists _, _. split; [reflexivity|]. split; forwards_tac.
  - intros ns ol bs ibs tf peek dr log m log' H.
    apply Seq2Seq_returns in H as (l' & shape & s0 & s1 & d0 & d1 & Hl' & _ & _ & _ & _ & _ & _ & ->).
    assert (l' = l) as -> by congruence.
    eexists _, _, _, _. split; [reflexivity|]. split; forwards_tac.
  - intros ol bidi dr log m log' H.
    apply AttentionSeq2Seq_returns in H
      as (l' & shape & s0 & s1 & s2 & d0 & d1 & Hl' & _ & _ & _ & _ & _ & _ & ->).
    assert (l' = l) as -> by congruence.
    eexists _, _, _. split; [reflexivity|]. forwards_tac.
Qed.

Lemma consumed_options_removed_witness :
  match
    normalize_args 8 None (DInt 1)
      (<["batch_input_shape" := VTuple [VNone; VInt 10; VInt 8]]>
         (<["input_dim" := VInt 8]>
            (<["unroll" := VBool true]> {[ "activation" := VStr "tanh" ]})))
  with
  | inr l =>
      l_kwargs l !! "batch_input_shape" = None /\
      l_kwargs l !! "unroll" = None /\
      l_kwargs l !! "input_dim" = Some (VInt 8) /\
      l_kwargs l !! "activation" = Some (VStr "tanh")
  | inl _ => False
  end.
Proof.
  destruct (normalize_args _ _ _ _) as [e|l] eqn:Hl; [vm_compute in Hl; discriminate Hl|].
  destruct (consumed_options_removed _ _ _ _ _ Hl) as (Hgone & Hkept & Hbelow & _).
  split; [apply Hgone; vm_compute; repeat constructor|].
  split; [apply Hgone; vm_compute; repeat constructor|].
  split.
  - destruct Hbelow as (_ & -> & _); [by eexists|]. reflexivity.
  - rewrite Hkept; [reflexivity|]. vm_compute. 
    intros H. repeat (apply elem_of_cons in H as [H|H]; [discriminate H|]).
    by apply elem_of_nil in H.
Defined.

(** ** The stacks of cells and dropout layers *)

Lemma filter_concat_replicate {A : Type} (p : A -> bool) (n : nat) (ls : list A) :
  List.filter p (concat (replicate n ls)) = concat (replicate n (List.filter p ls)).
Proof.
  induction n as [|n IH]; simpl; [done|]. by rewrite List.filter_app, IH.
Qed.

Lemma length_concat_replicate {A : Type} (n : nat) (ls : list A) :
  length (concat (replicate n ls)) = (n * length ls)%nat.
Proof.
  induction n as [|n IH]; simpl; [done|]. rewrite length_app, IH. lia.
Qed.

Lemma concat_replicate_singleton {A : Type} (n : nat) (x : A) :
  concat (replicate n [x]) = replicate n x.
Proof. induction n as [|n IH]; simpl; [done|]. by rewrite IH. Qed.

Lemma dropout_between_cells_stack (c0 d c : layer) (n : nat) :
  is_cell c0 = true -> is_dropout d = true -> is_cell c = true ->
  dropout_between_cells (c0 :: concat (replicate n [d; c])) = true.
Proof.
  intros H0 Hd Hc. revert c0 H0.
  induction n as [|n IH]; intros c0 H0; simpl; [done|].
  rewrite H0, Hd. simpl. by apply IH.
Qed.

Lemma dropout_before_each_cell_stack (d c : layer) (n : nat) :
  is_dropout d = true -> is_cell c = true ->
  dropout_before_each_cell (concat (replicate n [d; c])) = true.
Proof.
  intros Hd Hc. induction n as [|n IH]; simpl; [done|]. by rewrite Hd, Hc.
Qed.

(** C5, as the code has it: for encoder and decoder depths of at least 1,
    the encoder of [SimpleSeq2Seq] stacks as many cells as its depth with one
    dropout layer between every two consecutive cells and none before the
    first, one fewer than cells; the decoder stacks as many cells as its
    depth and as many dropout layers, one before every cell, the first
    included. *)
Theorem simple_stacks od ol hd depth dr kw log m log' d0 d1 :
  SimpleSeq2Seq od ol hd depth dr kw log = (inr m, log') ->
  depth_at (normalize_depth depth) 0 = inr d0 ->
  depth_at (normalize_depth depth) 1 = inr d1 ->
  1 <= d0 -> 1 <= d1 ->
  exists enc dec,
    m = Sequential [enc; dec] /\
    Z.of_nat (num_cells enc) = d0 /\
    Z.of_nat (num_dropouts enc) = d0 - 1 /\
    dropout_between_cells (rc_layers enc) = true /\
    Z.of_nat (num_cells dec) = d1 /\
    Z.of_nat (num_dropouts dec) = d1 /\
    dropout_before_each_cell (rc_layers dec) = true.
Proof.
  intros H Hd0 Hd1 Hle0 Hle1.
  apply SimpleSeq2Seq_returns in H
    as (l & s0 & s1 & s2 & d0' & d1' & Hl & _ & _ & _ & Hd0' & Hd1' & ->).
  apply normalize_args_hidden_dim in Hl as [_ Hdepth].
  rewrite Hdepth in Hd0', Hd1'.
  assert (d0' = d0) as -> by congruence. assert (d1' = d1) as -> by congruence.
  eexists _, _. split; [reflexivity|].
  unfold num_cells, num_dropouts, cells, simple_encoder, simple_decoder, range_len.
  cbn [rc_layers List.filter is_cell is_dropout negb].
  rewrite !filter_concat_replicate.
  cbn [List.filter is_cell is_dropout negb length].
  rewrite !length_concat_replicate. cbn [length].
  repeat split; try lia.
  - by apply dropout_between_cells_stack.
  - cbn [dropout_before_each_cell is_dropout is_cell negb andb].
    by apply dropout_before_each_cell_stack.
Qed.

Lemma simple_stacks_witness :
  exists enc dec,
    fst (SimpleSeq2Seq 8 10 None (DInt 3) 0
           {[ "input_shape" := VTuple [VInt 10; VInt 8] ]} [])
    = inr (Sequential [enc; dec]) /\
    num_cells enc = 3%nat /\ num_dropouts enc = 2%nat /\
    dropout_between_cells (rc_layers enc) = true /\
    num_cells dec = 3%nat /\ num_dropouts dec = 3%nat /\
    dropout_before_each_cell (rc_layers dec) = true.
Proof.
  destruct (SimpleSeq2Seq 8 10 None (DInt 3) 0
              {[ "input_shape" := VTuple [VInt 10; VInt 8] ]} [])
    as [[e|m] log'] eqn:Hrun; [vm_compute in Hrun; discriminate Hrun|].
  destruct (simple_stacks _ _ _ _ _ _ _ _ _ 3 3 Hrun eq_refl eq_refl)
    as (enc & dec & -> & Hc & Hd & Hbetween & Hc' & Hd' & Hbefore); [lia|lia|].
  exists enc, dec. repeat split; try assumption; lia.
Defined.

(** C5 as stated fails for the decoder: at depth 1 it holds one dropout
    layer, not none, and that layer comes before its only cell. *)
Lemma simple_decoder_leading_dropout :
  exists enc dec log,
    SimpleSeq2Seq 8 10 None (DInt 1) 0
      {[ "input_shape" := VTuple [VInt 10; VInt 8] ]} []
    = (inr (Sequential [enc; dec]), log) /\
    num_cells dec = 1%nat /\
    num_dropouts dec <> (1 - 1)%nat /\
    rc_layers dec
    = [Dropout 0 (Some (VTuple [VNone; VInt 8])); LSTMCell 8 None ∅].
Proof.
  eexists _, _, _. split; [vm_compute; reflexivity|].
  split; [reflexivity|]. split; [vm_compute; lia|reflexivity].
Qed.

(** C7: for a decoder depth [d >= 1] the decoder of [AttentionSeq2Seq] has
    [d] cells, of which exactly one is an attention cell, and it is the first;
    the [d - 1] cells stacked on it are plain decoder cells.  At depth 1 the
    attention cell produces [output_dim]; at greater depth it and the cells
    between produce [hidden_dim] and only the last cell produces
    [output_dim]. *)
Theorem attention_decoder_stack od ol hd depth bidi dr kw log m log' d1 :
  AttentionSeq2Seq od ol hd depth bidi dr kw log = (inr m, log') ->
  depth_at (normalize_depth depth) 1 = inr d1 ->
  1 <= d1 ->
  exists inputs dec x,
    m = Model inputs (Call (Plain dec) x) None None /\
    let h := resolve_hidden_dim hd od in
    cells dec
    = (AttentionDecoderCell (if d1 =? 1 then od else h) h
       :: replicate (Z.to_nat (d1 - 2)) (LSTMDecoderCell h h None ∅)
       ++ (if d1 =? 1 then [] else [LSTMDecoderCell od h None ∅]))%list /\
    Z.of_nat (num_cells dec) = d1 /\
    length (List.filter is_attention (rc_layers dec)) = 1%nat.
Proof.
  intros H Hd1 Hle.
  apply AttentionSeq2Seq_returns in H
    as (l & shape & s0 & s1 & s2 & d0 & d1' & Hl & _ & _ & _ & _ & _ & Hd1' & ->).
  apply normalize_args_hidden_dim in Hl as [Hh Hdepth].
  rewrite Hdepth in Hd1'. assert (d1' = d1) as -> by congruence.
  eexists _, _, _. split; [reflexivity|].
  cbv zeta. rewrite <- Hh.
  unfold num_cells, cells, attention_decoder, range_len. cbn [rc_layers].
  destruct (d1 =? 1) eqn:E.
  - assert (d1 = 1) as -> by lia. repeat split.
  - cbn [List.filter is_cell is_attention is_dropout negb].
    rewrite !List.filter_app, !filter_concat_replicate.
    cbn [List.filter is_cell is_attention is_dropout negb].
    rewrite concat_replicate_singleton.
    rewrite Z.sub_0_r.
    split; [reflexivity|].
    split; cbn [length];
      rewrite length_app, ?length_replicate, ?length_concat_replicate;
      cbn [length]; lia.
Qed.

Lemma attention_decoder_stack_witness :
  exists inputs dec x,
    fst (AttentionSeq2Seq 8 10 (Some 16) (DSeq [2; 3]) true 0
           {[ "input_shape" := VTuple [VInt 10; VInt 8] ]} [])
    = inr (Model inputs (Call (Plain dec) x) None None) /\
    cells dec
    = [AttentionDecoderCell 16 16; LSTMDecoderCell 16 16 None ∅;
       LSTMDecoderCell 8 16 None ∅].
Proof.
  destruct (AttentionSeq2Seq 8 10 (Some 16) (DSeq [2; 3]) true 0
              {[ "input_shape" := VTuple [VInt 10; VInt 8] ]} [])
    as [[e|m] log'] eqn:Hrun; [vm_compute in Hrun; discriminate Hrun|].
  destruct (attention_decoder_stack _ _ _ _ _ _ _ _ _ _ 3 Hrun eq_refl)
    as (inputs & dec & x & -> & Hcells & _); [lia|].
  exists inputs, dec, x. split; [reflexivity|]. exact Hcells.
Defined.

(** ** Seq2Seq: ground truth, initial states and the default flags *)

Lemma depth_at_lower (depth : depth_arg) (i j : nat) (d : Z) :
  depth_at depth i = inr d -> (j <= i)%nat -> exists d', depth_at depth j = inr d'.
Proof.
  destruct depth as [n|items]; simpl; [discriminate|].
  unfold list_subscript. destruct (items !! i) eqn:Hi; [|discriminate].
  intros _ Hle. destruct (lookup_lt_is_Some_2 items j) as [d' Hd'].
  { apply lookup_lt_Some in Hi. lia. }
  rewrite Hd'. eauto.
Qed.

Lemma py_slice_from_last_two {A : Type} (pre : list A) (a b : A) :
  py_slice_from (-2) (pre ++ [a; b]) = [a; b].
Proof.
  unfold py_slice_from. rewrite length_app. cbn [length].
  change (-2 <? 0) with true. cbv iota.
  replace (Z.to_nat (Z.max 0 (Z.of_nat (length pre + 2) + -2))) with (length pre) by lia.
  by rewrite drop_app_length.
Qed.

(** The two last outputs of an encoder that returns at least one state are
    its two last states, or its output and its only state. *)
Lemma call_with_states_last_two ns (c : container) (x : tensor) :
  (1 <= ns c)%nat ->
  py_slice_from (-2) (call_with_states ns c x)
  = [CallItem c x (ns c - 1); CallItem c x (ns c)].
Proof.
  intros H. unfold call_with_states.
  replace (S (ns c)) with ((ns c - 1) + 2)%nat by lia.
  rewrite seq_app, map_app. cbn [seq map]. rewrite py_slice_from_last_two.
  repeat f_equal; lia.
Qed.

(** Runs the straight-line part of a builder in the goal. *)
Ltac run :=
  repeat (cbv zeta;
    first
      [ rewrite bind_constructed
      | match goal with
        | |- context [bind (lift ?r) ?k ?log] =>
            rewrite (bind_lift_inr r _ k log) by (reflexivity || eassumption)
        end ]).

(** C2, as the code has it: with [broadcast_state=True] and
    [teacher_force=False] the builder never returns a model; and when its
    arguments normalise, the resolved shape has a second entry and [depth] has
    two, it gets as far as the wiring and raises there the [IndexError] of
    [inputs[1]] on the one-element list [inputs]. *)
Theorem default_flags_raise_IndexError ns od ol hd depth ibs peek dr kw log :
  (forall m log',
     Seq2Seq ns od ol hd depth true ibs false peek dr kw log <> (inr m, log')) /\
  (forall l s1 d1,
     normalize_args od hd depth kw = inr l ->
     shape_at (l_shape l) 1 = inr s1 ->
     depth_at (l_depth l) 1 = inr d1 ->
     exists log',
       Seq2Seq ns od ol hd depth true ibs false peek dr kw log
       = (inl (IndexError "list index out of range"), log')).
Proof.
  split.
  - intros m log' H.
    apply Seq2Seq_returns in H as (l & shape & s0 & s1 & d0 & d1 & _ & _ & _ & _ & _ & _ & Hflags & _).
    specialize (Hflags eq_refl). discriminate Hflags.
  - intros l s1 d1 Hl H1 Hd1.
    destruct (shape_at_lower _ 1 0 _ H1) as [s0 H0]; [lia|].
    destruct (depth_at_lower _ 1 0 _ Hd1) as [d0 Hd0]; [lia|].
    destruct (l_shape l) as [shape|] eqn:Hshape; [|discriminate H1].
    unfold Seq2Seq, RecurrentContainer, new.
    rewrite (bind_lift_inr _ l) by assumption. cbv zeta. rewrite Hshape.
    run.
    unfold bind at 1.
    rewrite (for_range_total
               (fun c => foldl add c
                  [LSTMCell (l_hidden_dim l) (Some (VTuple [s0; VInt (l_hidden_dim l)]))
                     (l_kwargs l); Dropout dr None])
               ["LSTMCell"; "Dropout"])
      by (intros; cbv beta;
          repeat (rewrite ?bind_constructed; rewrite (bind_lift_inr _ s0) by assumption);
          cbn; by rewrite <- ?app_assoc).
    run.
    unfold bind at 1.
    rewrite (for_range_total
               (fun c => foldl add c
                  [Dropout dr (Some (VTuple [s0; VInt od]));
                   LSTMDecoderCell od (l_hidden_dim l) (Some (VTuple [s0; VInt od]))
                     (l_kwargs l)])
               ["Dropout"; "LSTMDecoderCell"])
      by (intros; cbv beta;
          repeat (rewrite ?bind_constructed; rewrite (bind_lift_inr _ s0) by assumption);
          cbn; by rewrite <- ?app_assoc).
    run.
    unfold bind at 1. run. unfold ret at 1. cbv iota beta.
    unfold bind at 1. unfold ret at 1. cbv iota beta.
    unfold bind at 1.
    rewrite (bind_lift_inl _ (IndexError "list index out of range")) by reflexivity.
    eauto.
Qed.

Lemma default_flags_raise_IndexError_witness :
  exists log',
    Seq2Seq (fun _ => 2%nat) 8 10 None (DInt 1) true true false false 0
      {[ "input_shape" := VTuple [VInt 10; VInt 8] ]} []
    = (inl (IndexError "list index out of range"), log').
Proof.
  destruct (normalize_args 8 None (DInt 1) {[ "input_shape" := VTuple [VInt 10; VInt 8] ]})
    as [e|l] eqn:Hl; [vm_compute in Hl; discriminate Hl|].
  assert (Hshape : shape_at (l_shape l) 1 = inr (VInt 10)).
  { vm_compute in Hl. injection Hl as <-. reflexivity. }
  assert (Hdepth : depth_at (l_depth l) 1 = inr 1).
  { vm_compute in Hl. injection Hl as <-. reflexivity. }
  exact (proj2 (default_flags_raise_IndexError (fun _ => 2%nat) 8 10 None (DInt 1)
                  true false 0%Q {[ "input_shape" := VTuple [VInt 10; VInt 8] ]} [])
           l (VInt 10) 1 Hl Hshape Hdepth).
Defined.

(** C2 as stated fails: called with the default flags and no shape option,
    the builder fails on the unbound variable [shape] before it wires
    anything, not on an index out of range. *)
Lemma default_flags_without_shape :
  Seq2Seq (fun _ => 2%nat) 8 10 None (DInt 1) true true false false 0 ∅ []
  = (inl (UnboundLocalError "shape"), []) /\
  fst (Seq2Seq (fun _ => 2%nat) 8 10 None (DInt 1) true true false false 0 ∅ [])
  <> inl (IndexError "list index out of range").
Proof. split; [reflexivity|]. vm_compute. discriminate. Qed.

(** What the decoder of a model that [Seq2Seq] returns was called with: the
    ground truth follows [broadcast_state], the model inputs follow
    [teacher_force], and the initial states are the two last outputs of the
    encoder or two [None]s. *)
Lemma Seq2Seq_decoder_call ns od ol hd depth bs ibs tf peek dr kw log m log' :
  Seq2Seq ns od ol hd depth bs ibs tf peek dr kw log = (inr m, log') ->
  exists shape s0 enc dec x y,
    let truth := truth_input s0 ol od in
    m = Model (if tf then [Input shape; truth] else [Input shape])
          (CallDict dec y (if bs then Some truth else None) y
             (if bs then map Some (py_slice_from (-2) (call_with_states ns enc x))
              else [None; None]))
          (Some enc) (Some dec).
Proof.
  intros H.
  apply Seq2Seq_returns in H
    as (l & shape & s0 & s1 & d0 & d1 & _ & _ & _ & _ & _ & _ & _ & ->).
  by eexists shape, s0, _, _, _, _.
Qed.

(** C1, the defect: with [teacher_force=True] and [broadcast_state=False]
    the model takes the ground-truth tensor as its second input, of batch
    shape [(None, 10, 8)], and the decoder is called with the ground truth
    [None]: line 182 tests [broadcast_state] where it means [teacher_force]. *)
Theorem teacher_force_ground_truth_dropped ns :
  exists enc dec y log,
    Seq2Seq ns 8 10 None (DInt 1) false true true false 0
      {[ "input_shape" := VTuple [VInt 10; VInt 8] ]} []
    = (inr (Model
              [Input (VTuple [VNone; VInt 10; VInt 8]);
               Input (VTuple [VNone; VInt 10; VInt 8])]
              (CallDict dec y None y [None; None])
              (Some enc) (Some dec)),
       log).
Proof. eexists _, _, _, _. vm_compute. reflexivity. Qed.

(** C6, the defect: with the default flags ([broadcast_state=True],
    [teacher_force=False]) the builder raises while it evaluates the
    argument of the decoder call, so the decoder is handed no states at all
    and no model is made; the last object constructed is the input. *)
Theorem default_flags_decoder_not_called ns :
  Seq2Seq ns 8 10 None (DInt 1) true true false false 0
    {[ "input_shape" := VTuple [VInt 10; VInt 8] ]} []
  = (inl (IndexError "list index out of range"),
     ["RecurrentContainer"; "LSTMCell"; "Dropout"; "Dense"; "TimeDistributed";
      "Dense"; "RecurrentContainer"; "Dropout"; "LSTMDecoderCell"; "Input"]).
Proof. reflexivity. Qed.

(** Where the decoder is called, it is called with the states C6 names. *)
Lemma Seq2Seq_initial_states ns od ol hd depth bs ibs tf peek dr kw log m log' :
  Seq2Seq ns od ol hd depth bs ibs tf peek dr kw log = (inr m, log') ->
  exists inputs enc dec x y gt states,
    m = Model inputs (CallDict dec y gt y states) (Some enc) (Some dec) /\
    (bs = false -> states = [None; None]) /\
    (bs = true -> (1 <= ns enc)%nat ->
     states = [Some (CallItem enc x (ns enc - 1)); Some (CallItem enc x (ns enc))]).
Proof.
  intros H.
  apply Seq2Seq_returns in H
    as (l & shape & s0 & s1 & d0 & d1 & _ & _ & _ & _ & _ & _ & _ & ->).
  eexists _, _, _, _, _, _, _. split; [reflexivity|]. split.
  - by intros ->.
  - intros -> Hns. by rewrite call_with_states_last_two.
Qed.

(** * Further properties of the builders *)

(** ** When a build succeeds *)

(** Replaces, in the goal, a loop that adds the layers [ls] in each round
    and whose body reads at most [shape[0]], known to be [s0]. *)
Ltac run_loop_goal ls calls s0 :=
  unfold bind at 1;
  rewrite (for_range_total (fun c => foldl add c ls) calls)
    by (intros; cbv beta;
        repeat (rewrite ?bind_constructed; rewrite (bind_lift_inr _ s0) by assumption);
        cbn; by rewrite <- ?app_assoc);
  rewrite iter_add_layers.

Lemma SimpleSeq2Seq_runs od ol hd depth dr kw log l s2 d1 :
  normalize_args od hd depth kw = inr l ->
  shape_at (l_shape l) 2 = inr s2 ->
  depth_at (l_depth l) 1 = inr d1 ->
  exists s0 s1 d0,
    shape_at (l_shape l) 0 = inr s0 /\
    shape_at (l_shape l) 1 = inr s1 /\
    depth_at (l_depth l) 0 = inr d0 /\
    SimpleSeq2Seq od ol hd depth dr kw log
    = (inr (Sequential [simple_encoder l s0 s1 s2 d0 dr; simple_decoder l s0 s1 d1 ol dr]),
       (log ++ simple_calls d0 d1)%list).
Proof.
  intros Hl H2 Hd1.
  destruct (shape_at_lower _ 2 0 _ H2) as [s0 H0]; [lia|].
  destruct (shape_at_lower _ 2 1 _ H2) as [s1 H1]; [lia|].
  destruct (depth_at_lower _ 1 0 _ Hd1) as [d0 Hd0]; [lia|].
  exists s0, s1, d0. repeat (split; [assumption|]).
  unfold SimpleSeq2Seq, RecurrentContainer, new.
  rewrite (bind_lift_inr _ l) by assumption.
  run.
  run_loop_goal [Dropout dr None; LSTMCell (l_hidden_dim l) None (l_kwargs l)]
    ["Dropout"; "LSTMCell"] s0.
  run.
  run_loop_goal [Dropout dr None; LSTMCell (l_hidden_dim l) None (l_kwargs l)]
    ["Dropout"; "LSTMCell"] s0.
  run. unfold ret, simple_calls. cbn [class_of].
  f_equal. by rewrite <- !app_assoc.
Qed.

Lemma Seq2Seq_runs ns od ol hd depth bs ibs tf peek dr kw log l s1 d1 :
  normalize_args od hd depth kw = inr l ->
  shape_at (l_shape l) 1 = inr s1 ->
  depth_at (l_depth l) 1 = inr d1 ->
  (bs = true -> tf = true) ->
  exists m log', Seq2Seq ns od ol hd depth bs ibs tf peek dr kw log = (inr m, log').
Proof.
  intros Hl H1 Hd1 Hflags.
  destruct (shape_at_lower _ 1 0 _ H1) as [s0 H0]; [lia|].
  destruct (depth_at_lower _ 1 0 _ Hd1) as [d0 Hd0]; [lia|].
  destruct (l_shape l) as [shape|] eqn:Hshape; [|discriminate H1].
  unfold Seq2Seq, RecurrentContainer, new.
  rewrite (bind_lift_inr _ l) by assumption. cbv zeta. rewrite Hshape.
  run.
  run_loop_goal
    [LSTMCell (l_hidden_dim l) (Some (VTuple [s0; VInt (l_hidden_dim l)])) (l_kwargs l);
     Dropout dr None]
    ["LSTMCell"; "Dropout"] s0.
  run.
  run_loop_goal
    [Dropout dr (Some (VTuple [s0; VInt od]));
     LSTMDecoderCell od (l_hidden_dim l) (Some (VTuple [s0; VInt od])) (l_kwargs l)]
    ["Dropout"; "LSTMDecoderCell"] s0.
  run.
  destruct bs; [rewrite (Hflags eq_refl)|destruct tf];
    unfold bind at 1; run; unfold ret at 1; cbv iota beta;
    unfold bind at 1; run; unfold ret at 1; cbv iota beta;
    unfold bind at 1; run; try unfold ret at 1; cbv iota beta;
    run; unfold ret; eauto.
Qed.

Lemma AttentionSeq2Seq_runs od ol hd depth bidi dr kw log l s2 d1 :
  normalize_args od hd depth kw = inr l ->
  shape_at (l_shape l) 2 = inr s2 ->
  depth_at (l_depth l) 1 = inr d1 ->
  exists m log', AttentionSeq2Seq od ol hd depth bidi dr kw log = (inr m, log').
Proof.
  intros Hl H2 Hd1.
  destruct (shape_at_lower _ 2 0 _ H2) as [s0 H0]; [lia|].
  destruct (shape_at_lower _ 2 1 _ H2) as [s1 H1]; [lia|].
  destruct (depth_at_lower _ 1 0 _ Hd1) as [d0 Hd0]; [lia|].
  destruct (l_shape l) as [shape|] eqn:Hshape; [|discriminate H1].
  unfold AttentionSeq2Seq, RecurrentContainer, new.
  rewrite (bind_lift_inr _ l) by assumption. cbv zeta. rewrite Hshape.
  run.
  run_loop_goal [Dropout dr None; LSTMCell (l_hidden_dim l) None (l_kwargs l)]
    ["Dropout"; "LSTMCell"] s0.
  run.
  destruct bidi;
    [unfold bind at 1, constructed at 1 | unfold bind at 1, ret at 1];
    run; unfold bind at 1; destruct (d1 =? 1); run.
  2, 4: run_loop_goal
          [Dropout dr None; LSTMDecoderCell (l_hidden_dim l) (l_hidden_dim l) None ∅]
          ["Dropout"; "LSTMDecoderCell"] s0; run.
  all: unfold ret; eauto.
Qed.

(** X1: [SimpleSeq2Seq] returns a model exactly when its options resolve to
    a shape that has a third entry and [depth], once normalised, has a second
    entry; in every other case it raises. *)
Theorem SimpleSeq2Seq_succeeds_iff od ol hd depth dr kw log :
  (exists m log', SimpleSeq2Seq od ol hd depth dr kw log = (inr m, log')) <->
  (exists l s2 d1,
     normalize_args od hd depth kw = inr l /\
     shape_at (l_shape l) 2 = inr s2 /\
     depth_at (l_depth l) 1 = inr d1).
Proof.
  split.
  - intros (m & log' & H).
    apply SimpleSeq2Seq_returns in H as (l & s0 & s1 & s2 & d0 & d1 & ? & ? & ? & ? & ? & ? & _).
    eauto 10.
  - intros (l & s2 & d1 & Hl & H2 & Hd1).
    destruct (SimpleSeq2Seq_runs od ol hd depth dr kw log l s2 d1 Hl H2 Hd1)
      as (s0 & s1 & d0 & _ & _ & _ & Hrun).
    eauto.
Qed.

Lemma SimpleSeq2Seq_succeeds_iff_witness :
  exists m log',
    SimpleSeq2Seq 8 10 None (DSeq [2; 3]) 0
      {[ "batch_input_shape" := VTuple [VInt 32; VInt 10; VInt 8] ]} []
    = (inr m, log').
Proof.
  apply (proj2 (SimpleSeq2Seq_succeeds_iff 8 10 None (DSeq [2; 3]) 0%Q
                  {[ "batch_input_shape" := VTuple [VInt 32; VInt 10; VInt 8] ]} [])).
  eexists _, _, _. split; [vm_compute; reflexivity|]. split; reflexivity.
Defined.

(** X2: [Seq2Seq] returns a model exactly when its options resolve to a
    shape that has a second entry (a third is never read), [depth] has a
    second entry, and [teacher_force] is set whenever [broadcast_state] is. *)
Theorem Seq2Seq_succeeds_iff ns od ol hd depth bs ibs tf peek dr kw log :
  (exists m log', Seq2Seq ns od ol hd depth bs ibs tf peek dr kw log = (inr m, log')) <->
  (exists l s1 d1,
     normalize_args od hd depth kw = inr l /\
     shape_at (l_shape l) 1 = inr s1 /\
     depth_at (l_depth l) 1 = inr d1) /\
  (bs = true -> tf = true).
Proof.
  split.
  - intros (m & log' & H).
    apply Seq2Seq_returns in H
      as (l & shape & s0 & s1 & d0 & d1 & ? & ? & ? & ? & ? & ? & ? & _).
    split; eauto 10.
  - intros [(l & s1 & d1 & Hl & H1 & Hd1) Hflags].
    by apply (Seq2Seq_runs ns od ol hd depth bs ibs tf peek dr kw log l s1 d1).
Qed.

Lemma Seq2Seq_succeeds_iff_witness :
  exists m log',
    Seq2Seq (fun _ => 2%nat) 8 10 None (DInt 2) true true true false 0
      {[ "batch_input_shape" := VTuple [VInt 32; VInt 10] ]} []
    = (inr m, log').
Proof.
  apply (proj2 (Seq2Seq_succeeds_iff (fun _ => 2%nat) 8 10 None (DInt 2)
                  true true true false 0%Q
                  {[ "batch_input_shape" := VTuple [VInt 32; VInt 10] ]} [])).
  split; [|reflexivity].
  eexists _, _, _. split; [vm_compute; reflexivity|]. split; reflexivity.
Defined.

(** X3: [AttentionSeq2Seq] returns a model exactly when its options resolve
    to a shape that has a third entry and [depth] has a second entry. *)
Theorem AttentionSeq2Seq_succeeds_iff od ol hd depth bidi dr kw log :
  (exists m log', AttentionSeq2Seq od ol hd depth bidi dr kw log = (inr m, log')) <->
  (exists l s2 d1,
     normalize_args od hd depth kw = inr l /\
     shape_at (l_shape l) 2 = inr s2 /\
     depth_at (l_depth l) 1 = inr d1).
Proof.
  split.
  - intros (m & log' & H).
    apply AttentionSeq2Seq_returns in H
      as (l & shape & s0 & s1 & s2 & d0 & d1 & ? & ? & ? & ? & ? & ? & ? & _).
    eauto 10.
  - intros (l & s2 & d1 & Hl & H2 & Hd1).
    by apply (AttentionSeq2Seq_runs od ol hd depth bidi dr kw log l s2 d1).
Qed.

Lemma AttentionSeq2Seq_succeeds_iff_witness :
  exists m log',
    AttentionSeq2Seq 8 10 None (DInt 2) true 0
      (<["input_dim" := VInt 8]> {[ "input_length" := VInt 10 ]}) []
    = (inr m, log').
Proof.
  apply (proj2 (AttentionSeq2Seq_succeeds_iff 8 10 None (DInt 2) true 0%Q
                  (<["input_dim" := VInt 8]> {[ "input_length" := VInt 10 ]}) [])).
  eexists _, _, _. split; [vm_compute; reflexivity|]. split; reflexivity.
Defined.

Lemma length_simple_calls (d0 d1 : Z) :
  length (simple_calls d0 d1)
  = (2 * range_len 1 d0 + 2 * range_len 1 d1 + 6)%nat.
Proof.
  unfold simple_calls. rewrite !length_app, !length_concat_replicate. cbn [length]. lia.
Qed.

(** X4: a [SimpleSeq2Seq] that returns has constructed, after what the log
    held before, first the encoder container and its layers, then the decoder
    container and its layers, then the [Sequential] model, and nothing else:
    one object for each layer and three more. *)
Theorem SimpleSeq2Seq_constructs od ol hd depth dr kw log m log' :
  SimpleSeq2Seq od ol hd depth dr kw log = (inr m, log') ->
  exists enc dec d0 d1,
    m = Sequential [enc; dec] /\
    depth_at (normalize_depth depth) 0 = inr d0 /\
    depth_at (normalize_depth depth) 1 = inr d1 /\
    log' = (log ++ simple_calls d0 d1)%list /\
    length log'
    = (length log + length (rc_layers enc) + length (rc_layers dec) + 3)%nat.
Proof.
  intros H. pose proof H as Hret.
  apply SimpleSeq2Seq_returns in Hret
    as (l & s0 & s1 & s2 & d0 & d1 & Hl & H0 & H1 & H2 & Hd0 & Hd1 & ->).
  destruct (SimpleSeq2Seq_runs od ol hd depth dr kw log l s2 d1 Hl H2 Hd1)
    as (s0' & s1' & d0' & H0' & H1' & Hd0' & Hrun).
  assert (d0' = d0) as -> by congruence.
  rewrite Hrun in H. injection H as _ Hlog. subst log'.
  apply normalize_args_hidden_dim in Hl as [_ Hdepth]. rewrite Hdepth in Hd0, Hd1.
  eexists _, _, d0, d1. split; [reflexivity|]. repeat (split; [assumption || reflexivity|]).
  rewrite length_app, length_simple_calls.
  unfold simple_encoder, simple_decoder. cbn [rc_layers length].
  rewrite !length_concat_replicate. cbn [length]. lia.
Qed.

Lemma SimpleSeq2Seq_constructs_witness :
  exists m,
    SimpleSeq2Seq 8 10 None (DSeq [2; 1]) 0
      {[ "input_shape" := VTuple [VInt 10; VInt 8] ]} ["Input"]
    = (inr m,
       ["Input"; "RecurrentContainer"; "LSTMCell"; "Dropout"; "LSTMCell";
        "RecurrentContainer"; "Dropout"; "LSTMCell"; "Sequential"]).
Proof.
  destruct (SimpleSeq2Seq 8 10 None (DSeq [2; 1]) 0
              {[ "input_shape" := VTuple [VInt 10; VInt 8] ]} ["Input"])
    as [[e|m] log'] eqn:Hrun; [vm_compute in Hrun; discriminate Hrun|].
  destruct (SimpleSeq2Seq_constructs _ _ _ _ _ _ _ _ _ Hrun)
    as (enc & dec & d0 & d1 & _ & Hd0 & Hd1 & -> & _).
  injection Hd0 as <-. injection Hd1 as <-. exists m. reflexivity.
Defined.

(** ** The stacks at every depth *)


(** X5: at any depth, zero and negative depths included, each side of
    [SimpleSeq2Seq] stacks [max 1 d] cells: a depth below 1 still gives one
    cell.  The encoder has one dropout layer fewer than cells, the decoder as
    many as cells. *)
Theorem simple_stacks_any_depth od ol hd depth dr kw log m log' :
  SimpleSeq2Seq od ol hd depth dr kw log = (inr m, log') ->
  exists enc dec d0 d1,
    m = Sequential [enc; dec] /\
    depth_at (normalize_depth depth) 0 = inr d0 /\
    depth_at (normalize_depth depth) 1 = inr d1 /\
    Z.of_nat (num_cells enc) = Z.max 1 d0 /\
    S (num_dropouts enc) = num_cells enc /\
    Z.of_nat (num_cells dec) = Z.max 1 d1 /\
    num_dropouts dec = num_cells dec.
Proof.
  intros H.
  apply SimpleSeq2Seq_returns in H
    as (l & s0 & s1 & s2 & d0 & d1 & Hl & _ & _ & _ & Hd0 & Hd1 & ->).
  apply normalize_args_hidden_dim in Hl as [_ Hdepth]. rewrite Hdepth in Hd0, Hd1.
  eexists _, _, d0, d1. split; [reflexivity|]. do 2 (split; [assumption|]).
  unfold num_cells, num_dropouts, cells, simple_encoder, simple_decoder, range_len.
  cbn [rc_layers List.filter is_cell is_dropout negb].
  rewrite !filter_concat_replicate.
  cbn [List.filter is_cell is_dropout negb length].
  rewrite !length_concat_replicate. cbn [length].
  repeat split; lia.
Qed.

Lemma simple_stacks_any_depth_witness :
  exists enc dec,
    fst (SimpleSeq2Seq 8 10 None (DSeq [0; -2]) 0
           {[ "input_shape" := VTuple [VInt 10; VInt 8] ]} [])
    = inr (Sequential [enc; dec]) /\
    num_cells enc = 1%nat /\ num_cells dec = 1%nat.
Proof.
  destruct (SimpleSeq2Seq 8 10 None (DSeq [0; -2]) 0
              {[ "input_shape" := VTuple [VInt 10; VInt 8] ]} [])
    as [[e|m] log'] eqn:Hrun; [vm_compute in Hrun; discriminate Hrun|].
  destruct (simple_stacks_any_depth _ _ _ _ _ _ _ _ _ Hrun)
    as (enc & dec & d0 & d1 & -> & Hd0 & Hd1 & Hc & _ & Hc' & _).
  injection Hd0 as <-. injection Hd1 as <-.
  exists enc, dec. repeat split; lia.
Defined.



(** X7: at a decoder depth other than 1 the decoder of [AttentionSeq2Seq]
    always ends in a plain decoder cell producing [output_dim], so it holds
    [max 2 d] cells: a depth of 0 or less builds the same two cells as a
    depth of 2. *)
Theorem attention_decoder_any_depth od ol hd depth bidi dr kw log m log' d1 :
  AttentionSeq2Seq od ol hd depth bidi dr kw log = (inr m, log') ->
  depth_at (normalize_depth depth) 1 = inr d1 ->
  d1 <> 1 ->
  exists inputs dec x,
    m = Model inputs (Call (Plain dec) x) None None /\
    let h := resolve_hidden_dim hd od in
    Z.of_nat (num_cells dec) = Z.max 2 d1 /\
    head (cells dec) = Some (AttentionDecoderCell h h) /\
    last (cells dec) = Some (LSTMDecoderCell od h None ∅) /\
    (d1 <= 2 -> cells dec = [AttentionDecoderCell h h; LSTMDecoderCell od h None ∅]).
Proof.
  intros H Hd1 Hne.
  apply AttentionSeq2Seq_returns in H
    as (l & shape & s0 & s1 & s2 & d0 & d1' & Hl & _ & _ & _ & _ & _ & Hd1' & ->).
  apply normalize_args_hidden_dim in Hl as [Hh Hdepth].
  rewrite Hdepth in Hd1'. assert (d1' = d1) as -> by congruence.
  eexists _, _, _. split; [reflexivity|].
  cbv zeta. rewrite <- Hh.
  unfold num_cells, cells, attention_decoder, range_len. cbn [rc_layers].
  destruct (d1 =? 1) eqn:E; [lia|].
  cbn [List.filter is_cell is_dropout negb].
  rewrite !List.filter_app, !filter_concat_replicate.
  cbn [List.filter is_cell is_dropout negb].
  rewrite concat_replicate_singleton, Z.sub_0_r.
  split; [|split; [reflexivity|split]].
  - cbn [length]. rewrite length_app, length_replicate. cbn [length]. lia.
  - rewrite app_comm_cons. apply last_snoc.
  - intros Hle. replace (Z.to_nat (d1 - 2)) with 0%nat by lia. reflexivity.
Qed.

Lemma attention_decoder_any_depth_witness :
  exists inputs dec x,
    fst (AttentionSeq2Seq 8 10 (Some 16) (DSeq [1; 0]) false 0
           {[ "input_shape" := VTuple [VInt 10; VInt 8] ]} [])
    = inr (Model inputs (Call (Plain dec) x) None None) /\
    cells dec = [AttentionDecoderCell 16 16; LSTMDecoderCell 8 16 None ∅].
Proof.
  destruct (AttentionSeq2Seq 8 10 (Some 16) (DSeq [1; 0]) false 0
              {[ "input_shape" := VTuple [VInt 10; VInt 8] ]} [])
    as [[e|m] log'] eqn:Hrun; [vm_compute in Hrun; discriminate Hrun|].
  destruct (attention_decoder_any_depth _ _ _ _ _ _ _ _ _ _ 0 Hrun eq_refl)
    as (inputs & dec & x & -> & _ & _ & _ & Hcells); [lia|].
  exists inputs, dec, x. split; [reflexivity|]. apply Hcells. lia.
Defined.

(** ** The configuration of the containers *)

Lemma normalize_args_locals od hd depth (kw : kwargs_t) l :
  normalize_args od hd depth kw = inr l ->
  (exists kw1, resolve_shape kw = inr (l_shape l, kw1)) /\
  l_unroll l = default (VBool false) (kw !! "unroll") /\
  l_stateful l = default (VBool false) (kw !! "stateful").
Proof.
  unfold normalize_args.
  destruct (resolve_shape kw) as [e|[shape kw1]] eqn:Hr; [discriminate|].
  pose proof (resolve_shape_kwargs _ _ _ Hr) as Hkw1.
  destruct (matched_shape_keys_flags kw) as [Hu Hs].
  assert (Eu : kw1 !! "unroll" = kw !! "unroll").
  { subst kw1. by apply lookup_foldr_delete_not_elem_of. }
  assert (Es : kw1 !! "stateful" = kw !! "stateful").
  { subst kw1. by apply lookup_foldr_delete_not_elem_of. }
  unfold pop_flag. rewrite Eu.
  destruct (kw !! "unroll") as [u|] eqn:Hku;
    rewrite ?lookup_delete_ne by done; rewrite Es;
    destruct (kw !! "stateful") as [s|] eqn:Hks;
    intros [= <-]; simpl; eauto.
Qed.

(** X8: in every builder both containers are constructed with the
    [unroll] and [stateful] options the caller gave, and with [False] for an
    option that was not given. *)
Theorem unroll_stateful_reach_both_containers (kw : kwargs_t) :
  let unroll := default (VBool false) (kw !! "unroll") in
  let stateful := default (VBool false) (kw !! "stateful") in
  let configured (c : container) :=
    arg c "unroll" = Some unroll /\ arg c "stateful" = Some stateful in
  (forall od ol hd depth dr log m log',
     SimpleSeq2Seq od ol hd depth dr kw log = (inr m, log') ->
     exists enc dec, m = Sequential [enc; dec] /\ configured enc /\ configured dec) /\
  (forall ns od ol hd depth bs ibs tf peek dr log m log',
     Seq2Seq ns od ol hd depth bs ibs tf peek dr kw log = (inr m, log') ->
     exists inputs outputs enc dec,
       m = Model inputs outputs (Some enc) (Some dec) /\ configured enc /\ configured dec) /\
  (forall od ol hd depth bidi dr log m log',
     AttentionSeq2Seq od ol hd depth bidi dr kw log = (inr m, log') ->
     exists x enc dec,
       m = Model [x]
             (Call (Plain dec)
                (Call (if bidi then Bidirectional enc "sum" else Plain enc) x))
             None None /\
       configured enc /\ configured dec).
Proof.
  cbv zeta. split; [|split].
  - intros od ol hd depth dr log m log' H.
    apply SimpleSeq2Seq_returns in H
      as (l & s0 & s1 & s2 & d0 & d1 & Hl & _ & _ & _ & _ & _ & ->).
    apply normalize_args_locals in Hl as (_ & <- & <-).
    eexists _, _. split; [reflexivity|]. by repeat split.
  - intros ns od ol hd depth bs ibs tf peek dr log m log' H.
    apply Seq2Seq_returns in H
      as (l & shape & s0 & s1 & d0 & d1 & Hl & _ & _ & _ & _ & _ & _ & ->).
    apply normalize_args_locals in Hl as (_ & <- & <-).
    eexists _, _, _, _. split; [reflexivity|]. by repeat split.
  - intros od ol hd depth bidi dr log m log' H.
    apply AttentionSeq2Seq_returns in H
      as (l & shape & s0 & s1 & s2 & d0 & d1 & Hl & _ & _ & _ & _ & _ & _ & ->).
    apply normalize_args_locals in Hl as (_ & <- & <-).
    eexists _, _, _. split; [reflexivity|]. by repeat split.
Qed.

Lemma unroll_stateful_reach_both_containers_witness :
  exists enc dec,
    fst (SimpleSeq2Seq 8 10 None (DInt 1) 0
           (<["unroll" := VBool true]> {[ "input_shape" := VTuple [VInt 10; VInt 8] ]}) [])
    = inr (Sequential [enc; dec]) /\
    arg enc "unroll" = Some (VBool true) /\ arg dec "unroll" = Some (VBool true) /\
    arg enc "stateful" = Some (VBool false) /\ arg dec "stateful" = Some (VBool false).
Proof.
  destruct (SimpleSeq2Seq 8 10 None (DInt 1) 0
              (<["unroll" := VBool true]> {[ "input_shape" := VTuple [VInt 10; VInt 8] ]}) [])
    as [[e|m] log'] eqn:Hrun; [vm_compute in Hrun; discriminate Hrun|].
  destruct (unroll_stateful_reach_both_containers
              (<["unroll" := VBool true]> {[ "input_shape" := VTuple [VInt 10; VInt 8] ]}))
    as (Hsimple & _ & _).
  destruct (Hsimple _ _ _ _ _ _ _ _ Hrun) as (enc & dec & -> & [Hu Hs] & [Hu' Hs']).
  exists enc, dec. repeat split; assumption.
Defined.

(** X9: the modes of the two containers of [Seq2Seq].  The encoder always
    has its readout on, and returns its states exactly when [broadcast_state]
    is set; the decoder decodes [output_length] steps and its readout is
    ['add'] with [peek] and ['readout_only'] without; both synchronise their
    states exactly when [inner_broadcast_state] is set, and both take
    [shape[1]] as their input length. *)
Theorem seq2seq_container_modes ns od ol hd depth bs ibs tf peek dr kw log m log' :
  Seq2Seq ns od ol hd depth bs ibs tf peek dr kw log = (inr m, log') ->
  exists inputs outputs enc dec shape kw1 s1,
    m = Model inputs outputs (Some enc) (Some dec) /\
    resolve_shape kw = inr (Some shape, kw1) /\
    subscript shape 1 = inr s1 /\
    arg enc "readout" = Some (VBool true) /\
    arg enc "return_states" = Some (VBool bs) /\
    arg enc "state_sync" = Some (VBool ibs) /\
    arg dec "state_sync" = Some (VBool ibs) /\
    arg dec "readout" = Some (VStr (if peek then "add" else "readout_only")) /\
    arg dec "decode" = Some (VBool true) /\
    arg dec "output_length" = Some (VInt ol) /\
    arg enc "input_length" = Some s1 /\
    arg dec "input_length" = Some s1.
Proof.
  intros H.
  apply Seq2Seq_returns in H
    as (l & shape & s0 & s1 & d0 & d1 & Hl & Hshape & _ & H1 & _ & _ & _ & ->).
  apply normalize_args_locals in Hl as ([kw1 Hr] & _ & _).
  rewrite Hshape in Hr, H1.
  eexists _, _, _, _, shape, kw1, s1. split; [reflexivity|].
  split; [exact Hr|]. split; [exact H1|]. by repeat split.
Qed.

Lemma seq2seq_container_modes_witness :
  exists inputs outputs enc dec,
    fst (Seq2Seq (fun _ => 2%nat) 8 10 None (DInt 1) false false false true 0
           {[ "input_shape" := VTuple [VInt 10; VInt 8] ]} [])
    = inr (Model inputs outputs (Some enc) (Some dec)) /\
    arg dec "readout" = Some (VStr "add") /\
    arg enc "return_states" = Some (VBool false) /\
    arg enc "input_length" = Some (VInt 10).
Proof.
  destruct (Seq2Seq (fun _ => 2%nat) 8 10 None (DInt 1) false false false true 0
              {[ "input_shape" := VTuple [VInt 10; VInt 8] ]} [])
    as [[e|m] log'] eqn:Hrun; [vm_compute in Hrun; discriminate Hrun|].
  destruct (seq2seq_container_modes _ _ _ _ _ _ _ _ _ _ _ _ _ _ Hrun)
    as (inputs & outputs & enc & dec & shape & kw1 & s1 & -> & Hr & Hs1
        & _ & Hrs & _ & _ & Hro & _ & _ & Hil & _).
  vm_compute in Hr. injection Hr as <- _. injection Hs1 as <-.
  exists inputs, outputs, enc, dec. repeat split; assumption.
Defined.

(** ** The graphs *)

(** X10: the graph [Seq2Seq] wires.  The first model input has the resolved
    shape; it goes through a time-distributed dense layer of [hidden_dim]
    units into the encoder, and the encoder's output through a dense layer of
    [output_dim] units.  That one tensor is both the decoder's input and its
    initial readout.  The model has a second input exactly when
    [teacher_force] is set, of shape [(shape[0], output_length, output_dim)],
    and its attributes [encoder] and [decoder] are the containers of the
    graph. *)
Theorem seq2seq_graph ns od ol hd depth bs ibs tf peek dr kw log m log' :
  Seq2Seq ns od ol hd depth bs ibs tf peek dr kw log = (inr m, log') ->
  exists shape kw1 s0 enc dec gt states,
    resolve_shape kw = inr (Some shape, kw1) /\
    subscript shape 0 = inr s0 /\
    let h := resolve_hidden_dim hd od in
    let x := TimeDistributedDense h (Input shape) in
    let y := Dense od (if bs then CallItem enc x 0 else Call (Plain enc) x) in
    m = Model
          (Input shape
           :: (if tf then [Input (VTuple [s0; VInt ol; VInt od])] else []))
          (CallDict dec y gt y states)
          (Some enc) (Some dec).
Proof.
  intros H.
  apply Seq2Seq_returns in H
    as (l & shape & s0 & s1 & d0 & d1 & Hl & Hshape & H0 & _ & _ & _ & _ & ->).
  pose proof (normalize_args_hidden_dim _ _ _ _ _ Hl) as [Hh _].
  apply normalize_args_locals in Hl as ([kw1 Hr] & _ & _).
  rewrite Hshape in Hr, H0.
  eexists shape, kw1, s0, _, _, _, _. split; [exact Hr|]. split; [exact H0|].
  cbv zeta. rewrite <- Hh. by destruct tf.
Qed.

Lemma seq2seq_graph_witness :
  exists enc dec y gt states,
    fst (Seq2Seq (fun _ => 2%nat) 8 10 None (DInt 1) true true true false 0
           {[ "batch_input_shape" := VTuple [VInt 32; VInt 10; VInt 8] ]} [])
    = inr (Model
             [Input (VTuple [VInt 32; VInt 10; VInt 8]);
              Input (VTuple [VInt 32; VInt 10; VInt 8])]
             (CallDict dec y gt y states) (Some enc) (Some dec)).
Proof.
  destruct (Seq2Seq (fun _ => 2%nat) 8 10 None (DInt 1) true true true false 0
              {[ "batch_input_shape" := VTuple [VInt 32; VInt 10; VInt 8] ]} [])
    as [[e|m] log'] eqn:Hrun; [vm_compute in Hrun; discriminate Hrun|].
  destruct (seq2seq_graph _ _ _ _ _ _ _ _ _ _ _ _ _ _ Hrun)
    as (shape & kw1 & s0 & enc & dec & gt & states & Hr & Hs0 & ->).
  vm_compute in Hr. injection Hr as <- _. injection Hs0 as <-.
  eexists _, _, _, _, _. reflexivity.
Defined.

(** X11: where [Seq2Seq] calls the decoder, the initial states it hands
    over are two [None]s without [broadcast_state]; with it they are the
    outputs of the encoder from the last-but-one on: its two last states, or
    its output and its state when it has one state only. *)
Theorem seq2seq_states_handed ns od ol hd depth bs ibs tf peek dr kw log m log' :
  Seq2Seq ns od ol hd depth bs ibs tf peek dr kw log = (inr m, log') ->
  exists inputs enc dec x y gt states,
    m = Model inputs (CallDict dec y gt y states) (Some enc) (Some dec) /\
    (bs = false -> states = [None; None]) /\
    (bs = true -> (1 <= ns enc)%nat ->
     states = [Some (CallItem enc x (ns enc - 1)); Some (CallItem enc x (ns enc))]) /\
    (bs = true -> ns enc = 0%nat -> states = [Some (CallItem enc x 0)]).
Proof.
  intros H.
  apply Seq2Seq_returns in H
    as (l & shape & s0 & s1 & d0 & d1 & _ & _ & _ & _ & _ & _ & _ & ->).
  eexists _, _, _, _, _, _, _. split; [reflexivity|]. split; [|split].
  - by intros ->.
  - intros -> Hns. by rewrite call_with_states_last_two.
  - intros -> Hns. unfold call_with_states. by rewrite Hns.
Qed.

Lemma seq2seq_states_handed_witness :
  exists inputs enc dec x y gt,
    fst (Seq2Seq (fun _ => 2%nat) 8 10 None (DInt 1) true true true false 0
           {[ "input_shape" := VTuple [VInt 10; VInt 8] ]} [])
    = inr (Model inputs
             (CallDict dec y gt y [Some (CallItem enc x 1); Some (CallItem enc x 2)])
             (Some enc) (Some dec)).
Proof.
  destruct (Seq2Seq (fun _ => 2%nat) 8 10 None (DInt 1) true true true false 0
              {[ "input_shape" := VTuple [VInt 10; VInt 8] ]} [])
    as [[e|m] log'] eqn:Hrun; [vm_compute in Hrun; discriminate Hrun|].
  destruct (seq2seq_states_handed _ _ _ _ _ _ _ _ _ _ _ _ _ _ Hrun)
    as (inputs & enc & dec & x & y & gt & states & -> & _ & Hstates & _).
  rewrite (Hstates eq_refl) by (simpl; lia).
  eexists _, _, _, _, _, _. reflexivity.
Defined.

(** X12: the graph [AttentionSeq2Seq] wires.  The model has one input, of
    the resolved shape, and no [encoder] or [decoder] attribute.  The encoder
    returns sequences and is called on the input, wrapped in [Bidirectional]
    with merge mode ['sum'] exactly when [bidirectional] is set; the decoder
    is called on the encoder's result alone.  The encoder stacks [max 1 d0]
    cells with one dropout layer between every two. *)
Theorem attention_graph od ol hd depth bidi dr kw log m log' :
  AttentionSeq2Seq od ol hd depth bidi dr kw log = (inr m, log') ->
  exists shape kw1 enc dec d0,
    resolve_shape kw = inr (Some shape, kw1) /\
    depth_at (normalize_depth depth) 0 = inr d0 /\
    m = Model [Input shape]
          (Call (Plain dec)
             (Call (if bidi then Bidirectional enc "sum" else Plain enc) (Input shape)))
          None None /\
    arg enc "return_sequences" = Some (VBool true) /\
    arg dec "decode" = Some (VBool true) /\
    arg dec "output_length" = Some (VInt ol) /\
    Z.of_nat (num_cells enc) = Z.max 1 d0 /\
    dropout_between_cells (rc_layers enc) = true.
Proof.
  intros H.
  apply AttentionSeq2Seq_returns in H
    as (l & shape & s0 & s1 & s2 & d0 & d1 & Hl & Hshape & _ & _ & _ & Hd0 & _ & ->).
  pose proof (normalize_args_hidden_dim _ _ _ _ _ Hl) as [_ Hdepth].
  apply normalize_args_locals in Hl as ([kw1 Hr] & _ & _).
  rewrite Hshape in Hr. rewrite Hdepth in Hd0.
  eexists shape, kw1, _, _, d0. split; [exact Hr|]. split; [exact Hd0|].
  split; [by destruct bidi|].
  repeat split.
  - unfold num_cells, cells, attention_encoder, range_len.
    cbn [rc_layers List.filter is_cell is_dropout negb].
    rewrite filter_concat_replicate.
    cbn [List.filter is_cell is_dropout negb length].
    rewrite length_concat_replicate. cbn [length]. lia.
  - by apply dropout_between_cells_stack.
Qed.

Lemma attention_graph_witness :
  exists enc dec,
    fst (AttentionSeq2Seq 8 10 None (DInt 2) true 0
           {[ "input_shape" := VTuple [VInt 10; VInt 8] ]} [])
    = inr (Model [Input (VTuple [VNone; VInt 10; VInt 8])]
             (Call (Plain dec)
                (Call (Bidirectional enc "sum") (Input (VTuple [VNone; VInt 10; VInt 8]))))
             None None) /\
    num_cells enc = 2%nat.
Proof.
  destruct (AttentionSeq2Seq 8 10 None (DInt 2) true 0
              {[ "input_shape" := VTuple [VInt 10; VInt 8] ]} [])
    as [[e|m] log'] eqn:Hrun; [vm_compute in Hrun; discriminate Hrun|].
  destruct (attention_graph _ _ _ _ _ _ _ _ _ _ Hrun)
    as (shape & kw1 & enc & dec & d0 & Hr & Hd0 & -> & _ & _ & _ & Hc & _).
  vm_compute in Hr. injection Hr as <- _. injection Hd0 as <-.
  exists enc, dec. split; [reflexivity|]. lia.
Defined.

(** ** Builds that fail *)

(** X13: an [input_shape] that cannot be iterated (an int, a bool, [None])
    makes every builder raise the error of [tuple(...)] before any object is
    constructed, when no batch shape is given to take precedence. *)
Theorem input_shape_not_iterable (kw : kwargs_t) (v : value) (e : exn) :
  kw !! "batch_input_shape" = None ->
  kw !! "input_shape" = Some v ->
  py_tuple v = inl e ->
  (forall od ol hd depth dr log,
     SimpleSeq2Seq od ol hd depth dr kw log = (inl e, log)) /\
  (forall ns od ol hd depth bs ibs tf peek dr log,
     Seq2Seq ns od ol hd depth bs ibs tf peek dr kw log = (inl e, log)) /\
  (forall od ol hd depth bidi dr log,
     AttentionSeq2Seq od ol hd depth bidi dr kw log = (inl e, log)).
Proof.
  intros Hb Hi Ht.
  assert (Hn : forall od hd depth, normalize_args od hd depth kw = inl e).
  { intros. unfold normalize_args, resolve_shape. by rewrite Hb, Hi, Ht. }
  repeat split; intros;
    unfold SimpleSeq2Seq, Seq2Seq, AttentionSeq2Seq;
    by rewrite (bind_lift_inl _ e) by apply Hn.
Qed.

Lemma input_shape_not_iterable_witness :
  Seq2Seq (fun _ => 2%nat) 8 10 None (DInt 1) true true false false 0
    {[ "input_shape" := VInt 10 ]} []
  = (inl (TypeError "object is not iterable"), []).
Proof.
  assert (Hb : ({[ "input_shape" := VInt 10 ]} : kwargs_t) !! "batch_input_shape" = None)
    by reflexivity.
  assert (Hi : ({[ "input_shape" := VInt 10 ]} : kwargs_t) !! "input_shape" = Some (VInt 10))
    by reflexivity.
  destruct (input_shape_not_iterable {[ "input_shape" := VInt 10 ]} (VInt 10)
              (TypeError "object is not iterable") Hb Hi eq_refl)
    as (_ & Hseq & _).
  exact (Hseq (fun _ => 2%nat) 8 10 None (DInt 1) true true false false 0%Q []).
Defined.

(** X14: a resolved shape with a second entry and no third makes
    [SimpleSeq2Seq] and [AttentionSeq2Seq] raise on [shape[2]] after the
    encoder container has been constructed, and only it: the failed build
    leaves one object behind. *)
Theorem shape_without_third_entry od ol hd depth dr kw log l s1 e :
  normalize_args od hd depth kw = inr l ->
  shape_at (l_shape l) 1 = inr s1 ->
  shape_at (l_shape l) 2 = inl e ->
  SimpleSeq2Seq od ol hd depth dr kw log
  = (inl e, (log ++ ["RecurrentContainer"])%list) /\
  (forall bidi,
     AttentionSeq2Seq od ol hd depth bidi dr kw log
     = (inl e, (log ++ ["RecurrentContainer"])%list)).
Proof.
  intros Hl H1 H2.
  destruct (shape_at_lower _ 1 0 _ H1) as [s0 H0]; [lia|].
  split; [|intros bidi];
    unfold SimpleSeq2Seq, AttentionSeq2Seq, RecurrentContainer, new;
    rewrite (bind_lift_inr _ l) by assumption; run;
    by rewrite (bind_lift_inl _ e) by assumption.
Qed.

Lemma shape_without_third_entry_witness :
  SimpleSeq2Seq 8 10 None (DInt 1) 0 {[ "input_shape" := VTuple [VInt 10] ]} []
  = (inl (IndexError "tuple index out of range"), ["RecurrentContainer"]).
Proof.
  destruct (normalize_args 8 None (DInt 1) {[ "input_shape" := VTuple [VInt 10] ]})
    as [e|l] eqn:Hl; [vm_compute in Hl; discriminate Hl|].
  assert (H1 : shape_at (l_shape l) 1 = inr (VInt 10)).
  { vm_compute in Hl. injection Hl as <-. reflexivity. }
  assert (H2 : shape_at (l_shape l) 2 = inl (IndexError "tuple index out of range")).
  { vm_compute in Hl. injection Hl as <-. reflexivity. }
  exact (proj1 (shape_without_third_entry 8 10 None (DInt 1) 0%Q
                  {[ "input_shape" := VTuple [VInt 10] ]} [] l (VInt 10) _ Hl H1 H2)).
Defined.

(** X15: a [depth] sequence with one entry makes [SimpleSeq2Seq] raise on
    [depth[1]] only after the whole encoder, the decoder container and the
    decoder's first dropout layer and cell have been constructed. *)
Theorem depth_without_second_entry od ol hd depth dr kw log l s2 d0 e :
  normalize_args od hd depth kw = inr l ->
  shape_at (l_shape l) 2 = inr s2 ->
  depth_at (l_depth l) 0 = inr d0 ->
  depth_at (l_depth l) 1 = inl e ->
  SimpleSeq2Seq od ol hd depth dr kw log
  = (inl e,
     (log ++ ["RecurrentContainer"; "LSTMCell"]
      ++ concat (replicate (range_len 1 d0) ["Dropout"; "LSTMCell"])
      ++ ["RecurrentContainer"; "Dropout"; "LSTMCell"])%list).
Proof.
  intros Hl H2 Hd0 Hd1.
  destruct (shape_at_lower _ 2 0 _ H2) as [s0 H0]; [lia|].
  destruct (shape_at_lower _ 2 1 _ H2) as [s1 H1]; [lia|].
  unfold SimpleSeq2Seq, RecurrentContainer, new.
  rewrite (bind_lift_inr _ l) by assumption.
  run.
  run_loop_goal [Dropout dr None; LSTMCell (l_hidden_dim l) None (l_kwargs l)]
    ["Dropout"; "LSTMCell"] s0.
  run.
  rewrite (bind_lift_inl _ e) by assumption.
  cbn [class_of]. f_equal. by rewrite <- !app_assoc.
Qed.

Lemma depth_without_second_entry_witness :
  SimpleSeq2Seq 8 10 None (DSeq [2]) 0 {[ "input_shape" := VTuple [VInt 10; VInt 8] ]} []
  = (inl (IndexError "tuple index out of range"),
     ["RecurrentContainer"; "LSTMCell"; "Dropout"; "LSTMCell";
      "RecurrentContainer"; "Dropout"; "LSTMCell"]).
Proof.
  destruct (normalize_args 8 None (DSeq [2]) {[ "input_shape" := VTuple [VInt 10; VInt 8] ]})
    as [e|l] eqn:Hl; [vm_compute in Hl; discriminate Hl|].
  assert (H2 : shape_at (l_shape l) 2 = inr (VInt 8)).
  { vm_compute in Hl. injection Hl as <-. reflexivity. }
  assert (Hd0 : depth_at (l_depth l) 0 = inr 2).
  { vm_compute in Hl. injection Hl as <-. reflexivity. }
  assert (Hd1 : depth_at (l_depth l) 1 = inl (IndexError "tuple index out of range")).
  { vm_compute in Hl. injection Hl as <-. reflexivity. }
  exact (depth_without_second_entry 8 10 None (DSeq [2]) 0%Q
           {[ "input_shape" := VTuple [VInt 10; VInt 8] ]} [] l (VInt 8) 2 _ Hl H2 Hd0 Hd1).
Defined.

(** ** What reaches the layers *)

(** X16: [SimpleSeq2Seq] uses [output_dim] for nothing but the default of
    [hidden_dim]: called with a non-zero [hidden_dim], it builds the same for
    every [output_dim], all its cells having [hidden_dim] units. *)
Theorem simple_ignores_output_dim (od od' ol h : Z) depth dr kw :
  h <> 0 ->
  SimpleSeq2Seq od ol (Some h) depth dr kw = SimpleSeq2Seq od' ol (Some h) depth dr kw /\
  (forall log m log',
     SimpleSeq2Seq od ol (Some h) depth dr kw log = (inr m, log') ->
     exists enc dec s kw',
       m = Sequential [enc; dec] /\
       Forall (fun c => c = LSTMCell h s kw' \/ c = LSTMCell h None kw') (cells enc) /\
       Forall (fun c => c = LSTMCell h None kw') (cells dec)).
Proof.
  intros Hh.
  assert (Hr : forall o, resolve_hidden_dim (Some h) o = h).
  { intros o. simpl. destruct (h =? 0) eqn:E; [lia|done]. }
  split.
  - assert (Hn : normalize_args od (Some h) depth kw = normalize_args od' (Some h) depth kw).
    { unfold normalize_args. by rewrite !Hr. }
    unfold SimpleSeq2Seq. by rewrite Hn.
  - intros log m log' H.
    apply SimpleSeq2Seq_returns in H
      as (l & s0 & s1 & s2 & d0 & d1 & Hl & _ & _ & _ & _ & _ & ->).
    apply normalize_args_hidden_dim in Hl as [Hhid _]. rewrite Hr in Hhid.
    eexists _, _, _, (l_kwargs l). split; [reflexivity|].
    unfold cells, simple_encoder, simple_decoder. rewrite Hhid.
    cbn [rc_layers List.filter is_cell is_dropout negb].
    rewrite !filter_concat_replicate.
    cbn [List.filter is_cell is_dropout negb].
    rewrite !concat_replicate_singleton.
    split.
    + apply Forall_cons_2; [by left|]. apply Forall_replicate. by right.
    + apply Forall_cons_2; [done|]. by apply Forall_replicate.
Qed.

Lemma simple_ignores_output_dim_witness :
  SimpleSeq2Seq 8 10 (Some 16) (DInt 2) 0 {[ "input_shape" := VTuple [VInt 10; VInt 8] ]}
  = SimpleSeq2Seq 99 10 (Some 16) (DInt 2) 0 {[ "input_shape" := VTuple [VInt 10; VInt 8] ]}.
Proof.
  apply (proj1 (simple_ignores_output_dim 8 99 10 16 (DInt 2) 0%Q
                  {[ "input_shape" := VTuple [VInt 10; VInt 8] ]} ltac:(lia))).
Defined.

Ltac layers_tac leaf :=
  repeat first
    [ apply Forall_nil_2
    | apply Forall_cons_2; [leaf|]
    | apply Forall_concat_replicate
    | apply Forall_app_2 ].

(** X17: the options of [AttentionSeq2Seq] reach its encoder cells only:
    whatever is passed, no cell of the decoder is given a keyword option or a
    batch input shape. *)
Theorem attention_decoder_takes_no_options od ol hd depth bidi dr kw log m log' :
  AttentionSeq2Seq od ol hd depth bidi dr kw log = (inr m, log') ->
  exists inputs dec x,
    m = Model inputs (Call (Plain dec) x) None None /\
    Forall (fun c =>
              (exists o h, c = AttentionDecoderCell o h) \/
              (exists o h, c = LSTMDecoderCell o h None ∅))
      (cells dec).
Proof.
  intros H.
  apply AttentionSeq2Seq_returns in H
    as (l & shape & s0 & s1 & s2 & d0 & d1 & _ & _ & _ & _ & _ & _ & _ & ->).
  eexists _, _, _. split; [reflexivity|].
  unfold cells, attention_decoder. cbn [rc_layers].
  destruct (d1 =? 1).
  - cbn [List.filter is_cell is_dropout negb]. layers_tac ltac:(left; eauto).
  - cbn [List.filter is_cell is_dropout negb].
    rewrite !List.filter_app, !filter_concat_replicate.
    cbn [List.filter is_cell is_dropout negb].
    layers_tac ltac:(first [left; by eauto | right; by eauto]).
Qed.

Lemma attention_decoder_takes_no_options_witness :
  exists inputs dec x,
    fst (AttentionSeq2Seq 8 10 None (DInt 2) false 0
           (<["activation" := VStr "tanh"]>
              {[ "input_shape" := VTuple [VInt 10; VInt 8] ]}) [])
    = inr (Model inputs (Call (Plain dec) x) None None) /\
    Forall (fun c =>
              (exists o h, c = AttentionDecoderCell o h) \/
              (exists o h, c = LSTMDecoderCell o h None ∅))
      (cells dec).
Proof.
  destruct (AttentionSeq2Seq 8 10 None (DInt 2) false 0
              (<["activation" := VStr "tanh"]>
                 {[ "input_shape" := VTuple [VInt 10; VInt 8] ]}) [])
    as [[e|m] log'] eqn:Hrun; [vm_compute in Hrun; discriminate Hrun|].
  destruct (attention_decoder_takes_no_options _ _ _ _ _ _ _ _ _ _ Hrun)
    as (inputs & dec & x & -> & Hcells).
  exists inputs, dec, x. by split.
Defined.

(** X18: every dropout layer of every container a builder makes has the
    rate [dropout] the builder was called with. *)
Theorem dropout_rate_everywhere (dr : Q) :
  (forall od ol hd depth kw log m log',
     SimpleSeq2Seq od ol hd depth dr kw log = (inr m, log') ->
     exists enc dec,
       m = Sequential [enc; dec] /\ dropout_rate_is dr enc /\ dropout_rate_is dr dec) /\
  (forall ns od ol hd depth bs ibs tf peek kw log m log',
     Seq2Seq ns od ol hd depth bs ibs tf peek dr kw log = (inr m, log') ->
     exists inputs outputs enc dec,
       m = Model inputs outputs (Some enc) (Some dec) /\
       dropout_rate_is dr enc /\ dropout_rate_is dr dec) /\
  (forall od ol hd depth bidi kw log m log',
     AttentionSeq2Seq od ol hd depth bidi dr kw log = (inr m, log') ->
     exists x enc dec,
       m = Model [x]
             (Call (Plain dec)
                (Call (if bidi then Bidirectional enc "sum" else Plain enc) x))
             None None /\
       dropout_rate_is dr enc /\ dropout_rate_is dr dec).
Proof.
  split; [|split].
  - intros od ol hd depth kw log m log' H.
    apply SimpleSeq2Seq_returns in H
      as (l & s0 & s1 & s2 & d0 & d1 & _ & _ & _ & _ & _ & _ & ->).
    eexists _, _. split; [reflexivity|].
    split; unfold dropout_rate_is; cbn [rc_layers simple_encoder simple_decoder];
      layers_tac ltac:(intros r s Heq; congruence).
  - intros ns od ol hd depth bs ibs tf peek kw log m log' H.
    apply Seq2Seq_returns in H
      as (l & shape & s0 & s1 & d0 & d1 & _ & _ & _ & _ & _ & _ & _ & ->).
    eexists _, _, _, _. split; [reflexivity|].
    split; unfold dropout_rate_is; cbn [rc_layers seq2seq_encoder seq2seq_decoder];
      layers_tac ltac:(intros r s Heq; congruence).
  - intros od ol hd depth bidi kw log m log' H.
    apply AttentionSeq2Seq_returns in H
      as (l & shape & s0 & s1 & s2 & d0 & d1 & _ & _ & _ & _ & _ & _ & _ & ->).
    eexists _, _, _. split; [reflexivity|].
    split; unfold dropout_rate_is; cbn [rc_layers attention_encoder attention_decoder];
      [|destruct (d1 =? 1)];
      layers_tac ltac:(intros r s Heq; congruence).
Qed.

Lemma dropout_rate_everywhere_witness :
  exists enc dec,
    fst (SimpleSeq2Seq 8 10 None (DInt 2) (1 # 2)
           {[ "input_shape" := VTuple [VInt 10; VInt 8] ]} [])
    = inr (Sequential [enc; dec]) /\
    dropout_rate_is (1 # 2) enc /\ dropout_rate_is (1 # 2) dec.
Proof.
  destruct (SimpleSeq2Seq 8 10 None (DInt 2) (1 # 2)
              {[ "input_shape" := VTuple [VInt 10; VInt 8] ]} [])
    as [[e|m] log'] eqn:Hrun; [vm_compute in Hrun; discriminate Hrun|].
  destruct (dropout_rate_everywhere (1 # 2)) as (Hsimple & _ & _).
  destruct (Hsimple _ _ _ _ _ _ _ _ Hrun) as (enc & dec & -> & Henc & Hdec).
  exists enc, dec. by repeat split.
Defined.

(** X19: an [input_shape] given as a list resolves as the tuple of the same
    items does, so every builder builds the same from either. *)
Theorem input_shape_list_as_tuple (kw : kwargs_t) (items : list value) :
  kw !! "batch_input_shape" = None ->
  resolve_shape (<["input_shape" := VList items]> kw)
  = inr (Some (VTuple (VNone :: items)), delete "input_shape" kw) /\
  same_builds (<["input_shape" := VList items]> kw) (<["input_shape" := VTuple items]> kw).
Proof.
  intros Hb.
  assert (E : forall v, py_tuple v = inr items ->
            resolve_shape (<["input_shape" := v]> kw)
            = inr (Some (VTuple (VNone :: items)), delete "input_shape" kw)).
  { intros v Hv. unfold resolve_shape.
    rewrite lookup_insert_ne, Hb, lookup_insert_eq, Hv by done.
    by rewrite delete_insert_eq. }
  split; [by apply E|].
  apply resolve_shape_same_builds. by rewrite !E.
Qed.

Lemma input_shape_list_as_tuple_witness :
  resolve_shape {[ "input_shape" := VList [VInt 10; VInt 8] ]}
  = inr (Some (VTuple [VNone; VInt 10; VInt 8]), delete "input_shape" ∅).
Proof.
  assert (Hb : (∅ : kwargs_t) !! "batch_input_shape" = None) by reflexivity.
  exact (proj1 (input_shape_list_as_tuple ∅ [VInt 10; VInt 8] Hb)).
Defined.
